(** * user-subscriptions-api: validation rules and the cost-aggregation query builder

    A shallow embedding of [internal/subscriptions] (model.go, service.go,
    repository.go and the route table of handler.go), followed by the
    properties of the period validator, of the request validation and of the
    incremental construction of the aggregate statement. *)

From Stdlib Require Import String Ascii List ZArith Lia Bool DecimalString.
Import ListNotations.
Open Scope list_scope.
Open Scope string_scope.

Set Implicit Arguments.

(* ================================================================== *)
(** ** Go values *)

(** A Go [error] built by [fmt.Errorf]: its message.  A nil [error] is [None]. *)
Definition error := string.

(** [fmt.Errorf(prefix + ": %w", err)]. *)
Definition wrap (prefix : string) (err : error) : error := prefix ++ ": " ++ err.

(** [uuid.UUID] is [[16]byte]; [uuid.Nil] is the array of sixteen zero bytes. *)
Definition UUID := list ascii.
Definition uuid_Nil : UUID := repeat zero 16.

Fixpoint uuid_eqb (a b : UUID) : bool :=
  match a, b with
  | [], [] => true
  | x :: a', y :: b' => Ascii.eqb x y && uuid_eqb a' b'
  | _, _ => false
  end.

(** [fmt.Sprintf("%d", n)] for a Go [int]. *)
Definition sprintf_d (n : Z) : string := NilZero.string_of_int (Z.to_int n).

(** The ASCII digits. *)
Definition is_digit (c : ascii) : bool :=
  let n := nat_of_ascii c in (48 <=? n)%nat && (n <=? 57)%nat.

(** The decimal number at the head of a text, with the rest of the text. *)
Fixpoint read_nat (acc : nat) (s : string) : nat * string :=
  match s with
  | String c s' =>
      if is_digit c then read_nat (10 * acc + (nat_of_ascii c - 48)) s'
      else (acc, s)
  | EmptyString => (acc, s)
  end.

(* ================================================================== *)
(** ** The fragment of Go's [regexp] that the validator relies on

    [regexp.MatchString(pattern, s)] compiles [pattern] and reports whether
    [s] contains a match.  The syntax handled here is the one the source
    uses: an optional leading [^], an optional trailing [$] (without the [m]
    flag these anchor at the beginning and the end of the text), and between
    them a sequence of atoms, each a literal character or the Perl class
    [\d] (ASCII digits only in RE2), optionally followed by a counted
    repetition [{n}].  Matching is on bytes; the atoms above only match
    bytes below 0x80, so this agrees with matching on runes. *)

Module Regexp.

Inductive atom : Type :=
| Lit (c : ascii)
| Digit.

(** A compiled pattern: anchors and a sequence of repeated atoms. *)
Record t : Type := mk {
  anchored_begin : bool;
  anchored_end : bool;
  body : list (atom * nat)
}.

Definition is_meta (c : ascii) : bool :=
  existsb (Ascii.eqb c)
    ["\"; "."; "+"; "*"; "?"; "("; ")"; "|"; "["; "]"; "{"; "}"; "^"; "$"]%char.

(** An optional [{n}] after an atom. *)
Definition read_count (s : string) : option (nat * string) :=
  match s with
  | String "{" (String c s') =>
      if is_digit c then
        match read_nat 0 (String c s') with
        | (n, String "}" rest) => Some (n, rest)
        | _ => None
        end
      else None
  | _ => Some (1%nat, s)
  end.

(** The atoms of a pattern, up to the end or to a final [$].  [fuel]
    bounds the number of atoms; the length of the pattern is enough. *)
Fixpoint parse_body (fuel : nat) (s : string) : option (list (atom * nat) * bool) :=
  match fuel with
  | O => None
  | S fuel' =>
      match s with
      | EmptyString => Some ([], false)
      | String "$" EmptyString => Some ([], true)
      | String "\" (String "d" rest) =>
          match read_count rest with
          | Some (n, rest') =>
              match parse_body fuel' rest' with
              | Some (l, e) => Some ((Digit, n) :: l, e)
              | None => None
              end
          | None => None
          end
      | String c rest =>
          if is_meta c then None
          else
            match read_count rest with
            | Some (n, rest') =>
                match parse_body fuel' rest' with
                | Some (l, e) => Some ((Lit c, n) :: l, e)
                | None => None
                end
            | None => None
            end
      end
  end.

(** [regexp.Compile]: [None] stands for a syntax this model does not read. *)
Definition compile (pattern : string) : option t :=
  match pattern with
  | String "^" rest =>
      match parse_body (S (String.length rest)) rest with
      | Some (l, e) => Some (mk true e l)
      | None => None
      end
  | _ =>
      match parse_body (S (String.length pattern)) pattern with
      | Some (l, e) => Some (mk false e l)
      | None => None
      end
  end.

Definition atom_matches (a : atom) (c : ascii) : bool :=
  match a with
  | Lit c' => Ascii.eqb c c'
  | Digit => is_digit c
  end.

(** [n] consecutive characters matching [a]; the remaining text. *)
Fixpoint match_rep (a : atom) (n : nat) (s : string) : option string :=
  match n with
  | O => Some s
  | S n' =>
      match s with
      | String c s' => if atom_matches a c then match_rep a n' s' else None
      | EmptyString => None
      end
  end.

(** The body matched at the head of the text; the remaining text. *)
Fixpoint match_body (l : list (atom * nat)) (s : string) : option string :=
  match l with
  | [] => Some s
  | (a, n) :: l' =>
      match match_rep a n s with
      | Some s' => match_body l' s'
      | None => None
      end
  end.

Definition match_here (r : t) (s : string) : bool :=
  match match_body (body r) s with
  | Some rest =>
      if anchored_end r then
        match rest with EmptyString => true | _ => false end
      else true
  | None => false
  end.

(** A match starting at some position of the text. *)
Fixpoint match_anywhere (r : t) (s : string) : bool :=
  match_here r s ||
  match s with
  | String _ s' => match_anywhere r s'
  | EmptyString => false
  end.

Definition match_compiled (r : t) (s : string) : bool :=
  if anchored_begin r then match_here r s else match_anywhere r s.

(** [regexp.MatchString]: the pair [(matched, err)]. *)
Definition MatchString (pattern s : string) : bool * option error :=
  match compile pattern with
  | Some r => (match_compiled r s, None)
  | None => (false, Some ("error parsing regexp: " ++ pattern))
  end.

End Regexp.

(* ================================================================== *)
(** ** service.go: [validateDateFormat] *)

Definition validateDateFormat (date : string) : option error :=
  if String.eqb date "" then Some "date cannot be empty"
  else
    let pattern := "^\d{2}-\d{4}$" in
    let '(matched, err) := Regexp.MatchString pattern date in
    match err with
    | Some _ => Some "date must be in MM-YYYY format"
    | None =>
        if negb matched then Some "date must be in MM-YYYY format" else None
    end.

(* ================================================================== *)
(** ** model.go *)

Record Subscription : Type := {
  sub_ID : Z;
  sub_ServiceName : string;
  sub_Price : Z;
  sub_UserID : UUID;
  sub_StartDate : string;
  sub_EndDate : option string;
  sub_CreatedAt : Z;
  sub_UpdatedAt : Z
}.

Record CreateSubscriptionRequest : Type := {
  ServiceName : string;
  Price : Z;
  UserID : UUID;
  StartDate : string;
  EndDate : option string
}.

Record UpdateSubscriptionRequest : Type := {
  upd_ServiceName : string;
  upd_Price : Z;
  upd_UserID : UUID;
  upd_StartDate : string;
  upd_EndDate : option string
}.

Record CostResponse : Type := {
  TotalCost : Z;
  Count : Z
}.

(* ================================================================== *)
(** ** Programs over an interface

    The service talks to a [SubscriptionRepository] and a logger, the
    repository to a connection pool and a logger, all through interfaces.
    A method body is a tree: it returns, or it calls the interface and goes
    on with the answer.  What a program does before it returns is then a
    property of the tree, whatever implementation stands behind the
    interface. *)

Inductive Prog (E : Type -> Type) (A : Type) : Type :=
| Ret (a : A)
| Vis (X : Type) (e : E X) (k : X -> Prog E A).

Arguments Ret {E A} a.
Arguments Vis {E A X} e k.

Fixpoint bind {E : Type -> Type} {A B : Type}
    (p : Prog E A) (f : A -> Prog E B) : Prog E B :=
  match p with
  | Ret a => f a
  | Vis e k => Vis e (fun x => bind (k x) f)
  end.

Definition call {E : Type -> Type} {X : Type} (e : E X) : Prog E X := Vis e Ret.

Notation "x <- c ;; k" := (bind c (fun x => k))
  (at level 61, c at next level, right associativity).
Notation "' pat <- c ;; k" := (bind c (fun x => let 'pat := x in k))
  (at level 61, pat pattern, c at next level, right associativity).
Notation "c ;;; k" := (bind c (fun _ => k))
  (at level 61, right associativity).

(** One interface implemented by programs over another. *)
Fixpoint interp {E F : Type -> Type} {A : Type}
    (h : forall X, E X -> Prog F X) (p : Prog E A) : Prog F A :=
  match p with
  | Ret a => Ret a
  | Vis e k => bind (h _ e) (fun x => interp h (k x))
  end.

(** An implementation of the interface over a state [S], and the run of a
    program against it. *)
Fixpoint run {E : Type -> Type} {S A : Type}
    (h : forall X, E X -> S -> X * S) (p : Prog E A) (s : S) : A * S :=
  match p with
  | Ret a => (a, s)
  | Vis e k => let '(x, s') := h _ e s in run h (k x) s'
  end.

(** No call selected by [bad] on any path of the program. *)
Inductive never {E : Type -> Type} {A : Type}
    (bad : forall X, E X -> bool) : Prog E A -> Prop :=
| never_Ret (a : A) : never bad (Ret a)
| never_Vis (X : Type) (e : E X) (k : X -> Prog E A) :
    bad X e = false -> (forall x, never bad (k x)) -> never bad (Vis e k).

(** The calls selected by [bad] that a run makes. *)
Fixpoint count_calls {E : Type -> Type} {S A : Type}
    (bad : forall X, E X -> bool)
    (h : forall X, E X -> S -> X * S) (p : Prog E A) (s : S) : nat :=
  match p with
  | Ret _ => O
  | Vis e k =>
      let '(x, s') := h _ e s in
      ((if bad _ e then 1 else 0) + count_calls bad h (k x) s')%nat
  end.

(* ================================================================== *)
(** ** logger.LoggerInterface *)

Inductive level : Type := Info | Warn | Error.

(** A value of a [map[string]any] of log fields. *)
Inductive logval : Type :=
| LStr (s : string)
| LInt (n : Z)
| LUuid (u : UUID).

(* ================================================================== *)
(** ** The interface of the service: logger and [SubscriptionRepository] *)

Inductive svcE : Type -> Type :=
| Log (lv : level) (message : string) (fields : list (string * logval)) : svcE unit
| RepoCreate (req : CreateSubscriptionRequest) :
    svcE (option Subscription * option error)
| RepoUpdate (id : Z) (req : UpdateSubscriptionRequest) :
    svcE (option Subscription * option error)
| RepoGetCostByPeriod (startDate endDate : string)
    (userID : option UUID) (serviceName : option string) :
    svcE (Z * Z * option error).

Definition is_repo_call (X : Type) (e : svcE X) : bool :=
  match e with
  | Log _ _ _ => false
  | _ => true
  end.

(* ================================================================== *)
(** ** service.go *)

Definition validateSubscriptionRequest (req : CreateSubscriptionRequest) : option error :=
  if String.eqb (ServiceName req) "" then Some "service_name is required"
  else if (Price req <=? 0)%Z then Some "price must be greater than 0"
  else if uuid_eqb (UserID req) uuid_Nil then
    Some "user_id is required and must be valid UUID"
  else
    match validateDateFormat (StartDate req) with
    | Some err => Some err
    | None =>
        match EndDate req with
        | Some endDate =>
            if negb (String.eqb endDate "") then
              match validateDateFormat endDate with
              | Some err => Some err
              | None => None
              end
            else None
        | None => None
        end
    end.

Definition CreateSubscription (req : CreateSubscriptionRequest)
  : Prog svcE (option Subscription * option error) :=
  match validateSubscriptionRequest req with
  | Some err =>
      call (Log Warn "Validation failed" [("error", LStr err)]) ;;;
      Ret (None, Some err)
  | None => call (RepoCreate req)
  end.

Definition UpdateSubscription (id : Z) (req : UpdateSubscriptionRequest)
  : Prog svcE (option Subscription * option error) :=
  match validateSubscriptionRequest
          {| ServiceName := upd_ServiceName req;
             Price := upd_Price req;
             UserID := upd_UserID req;
             StartDate := upd_StartDate req;
             EndDate := upd_EndDate req |} with
  | Some err =>
      call (Log Warn "Validation failed" [("error", LStr err); ("id", LInt id)]) ;;;
      Ret (None, Some err)
  | None => call (RepoUpdate id req)
  end.

Definition GetCostByPeriod (startDate endDate : string)
    (userID : option UUID) (serviceName : option string)
  : Prog svcE (option CostResponse * option error) :=
  if String.eqb startDate "" && String.eqb endDate "" then
    Ret (None, Some "at least one date parameter is required")
  else
    match validateDateFormat startDate with
    | Some err => Ret (None, Some err)
    | None =>
        match (if negb (String.eqb endDate "")
               then validateDateFormat endDate else None) with
        | Some err => Ret (None, Some err)
        | None =>
            '(totalCost, count, err) <-
               call (RepoGetCostByPeriod startDate endDate userID serviceName) ;;
            match err with
            | Some e => Ret (None, Some e)
            | None => Ret (Some {| TotalCost := totalCost; Count := count |}, None)
            end
        end
    end.

(* ================================================================== *)
(** ** The interface of the repository: logger and [pgxpool.Pool] *)

(** A statement parameter, as the repository passes it to the pool. *)
Inductive arg : Type :=
| AString (s : string)
| AInt (n : Z)
| AUuid (u : UUID)
| AUuidPtr (u : option UUID)
| AStringPtr (s : option string).

(** [QueryRow(ctx, query, args...).Scan(dest...)], by the destinations
    scanned into: the columns of a subscription, or the two aggregates. *)
Inductive dbE : Type -> Type :=
| DbLog (lv : level) (message : string) (fields : list (string * logval)) : dbE unit
| QueryRowSubscription (query : string) (args : list arg) : dbE (Subscription + error)
| QueryRowCost (query : string) (args : list arg) : dbE (Z * Z + error).

Definition is_db_call (X : Type) (e : dbE X) : bool :=
  match e with
  | DbLog _ _ _ => false
  | _ => true
  end.

(* ================================================================== *)
(** ** repository.go *)

Definition repo_Create (req : CreateSubscriptionRequest)
  : Prog dbE (option Subscription * option error) :=
  r <- call (QueryRowSubscription
       "INSERT INTO subscriptions (service_name, price, user_id, start_date, end_date) VALUES ($1, $2, $3, $4, $5) RETURNING id, service_name, price, user_id, start_date, end_date, created_at, updated_at"
       [AString (ServiceName req); AInt (Price req); AUuid (UserID req);
        AString (StartDate req); AStringPtr (EndDate req)]) ;;
  match r with
  | inr err =>
      call (DbLog Error "Failed to create subscription"
              [("error", LStr err); ("service", LStr (ServiceName req))]) ;;;
      Ret (None, Some (wrap "failed to create subscription" err))
  | inl sub =>
      call (DbLog Info "Subscription created"
              [("id", LInt (sub_ID sub)); ("service", LStr (ServiceName req));
               ("user_id", LUuid (UserID req))]) ;;;
      Ret (Some sub, None)
  end.

Definition repo_Update (id : Z) (req : UpdateSubscriptionRequest)
  : Prog dbE (option Subscription * option error) :=
  r <- call (QueryRowSubscription
       "UPDATE subscriptions SET service_name=$1, price=$2, user_id=$3, start_date=$4, end_date=$5, updated_at=CURRENT_TIMESTAMP WHERE id=$6 RETURNING id, service_name, price, user_id, start_date, end_date, created_at, updated_at"
       [AString (upd_ServiceName req); AInt (upd_Price req); AUuid (upd_UserID req);
        AString (upd_StartDate req); AStringPtr (upd_EndDate req); AInt id]) ;;
  match r with
  | inr err =>
      call (DbLog Error "Failed to update subscription"
              [("error", LStr err); ("id", LInt id)]) ;;;
      Ret (None, Some (wrap "failed to update subscription" err))
  | inl sub =>
      call (DbLog Info "Subscription updated" [("id", LInt id)]) ;;;
      Ret (Some sub, None)
  end.

(** The statement and the parameters that [repository.GetCostByPeriod]
    accumulates in [query], [args] and [argCount] before it reads. *)
Definition costQuery (startDate endDate : string)
    (userID : option UUID) (serviceName : option string) : string * list arg :=
  let query := "SELECT COALESCE(SUM(price), 0) as total_cost, COUNT(*) as count FROM subscriptions WHERE 1=1" in
  let args : list arg := [] in
  let argCount := 1%Z in
  let '(query, args, argCount) :=
    if negb (String.eqb startDate "") then
      (query ++ " AND start_date >= $" ++ sprintf_d argCount,
       (args ++ [AString startDate])%list,
       (argCount + 1)%Z)
    else (query, args, argCount) in
  let '(query, args, argCount) :=
    if negb (String.eqb endDate "") then
      (query ++ " AND (end_date IS NULL OR end_date >= $" ++ sprintf_d argCount ++ ")",
       (args ++ [AString endDate])%list,
       (argCount + 1)%Z)
    else (query, args, argCount) in
  let '(query, args, argCount) :=
    match userID with
    | Some _ =>
        (query ++ " AND user_id = $" ++ sprintf_d argCount,
         (args ++ [AUuidPtr userID])%list,
         (argCount + 1)%Z)
    | None => (query, args, argCount)
    end in
  let '(query, args) :=
    match serviceName with
    | Some name =>
        (query ++ " AND service_name = $" ++ sprintf_d argCount,
         (args ++ [AString name])%list)
    | None => (query, args)
    end in
  (query, args).

Definition repo_GetCostByPeriod (startDate endDate : string)
    (userID : option UUID) (serviceName : option string)
  : Prog dbE (Z * Z * option error) :=
  let '(query, args) := costQuery startDate endDate userID serviceName in
  r <- call (QueryRowCost query args) ;;
  match r with
  | inr err =>
      call (DbLog Error "Failed to calculate cost" [("error", LStr err)]) ;;;
      Ret (0%Z, 0%Z, Some (wrap "failed to calculate cost" err))
  | inl (totalCost, count) =>
      call (DbLog Info "Cost calculated"
              [("total", LInt totalCost); ("count", LInt count)]) ;;;
      Ret (totalCost, count, None)
  end.

(** [NewRepository]: the repository as the implementation of the service's
    interface; both layers share the logger. *)
Definition repository (X : Type) (e : svcE X) : Prog dbE X :=
  match e in svcE T return Prog dbE T with
  | Log lv message fields => call (DbLog lv message fields)
  | RepoCreate req => repo_Create req
  | RepoUpdate id req => repo_Update id req
  | RepoGetCostByPeriod startDate endDate userID serviceName =>
      repo_GetCostByPeriod startDate endDate userID serviceName
  end.

(** [NewService(NewRepository(db, log), log)]: a service method over the pool. *)
Definition over_pool {A : Type} (p : Prog svcE A) : Prog dbE A := interp repository p.

(* ================================================================== *)
(** ** handler.go: [RegisterRoutes] *)

Inductive method : Type := GET | POST | PATCH | DELETE.

Inductive endpoint : Type :=
| HGetSubscriptions
| HCreateSubscription
| HGetCostByPeriod
| HUpdateSubscription
| HDeleteSubscription.

(** A chi routing tree: [r.Get], [r.Post], ... and [r.Route]. *)
Unset Elimination Schemes.
Inductive route : Type :=
| Handle (m : method) (pattern : string) (h : endpoint)
| Route (pattern : string) (sub : list route).
Set Elimination Schemes.

Definition RegisterRoutes : list route :=
  [Route "/v1"
     [Route "/subscriptions"
        [Handle GET "/" HGetSubscriptions;
         Handle POST "/" HCreateSubscription;
         Handle GET "/cost" HGetCostByPeriod;
         Route "/{id}"
           [Handle PATCH "/" HUpdateSubscription;
            Handle DELETE "/" HDeleteSubscription]]]].

(** The methods and full patterns under which the tree serves [h]. *)
Fixpoint served (h : endpoint) (prefix : string) (r : route) : list (method * string) :=
  match r with
  | Handle m pattern h' =>
      match h, h' with
      | HGetSubscriptions, HGetSubscriptions
      | HCreateSubscription, HCreateSubscription
      | HGetCostByPeriod, HGetCostByPeriod
      | HUpdateSubscription, HUpdateSubscription
      | HDeleteSubscription, HDeleteSubscription => [(m, prefix ++ pattern)]
      | _, _ => []
      end
  | Route pattern sub =>
      (fix go (l : list route) : list (method * string) :=
         match l with
         | [] => []
         | r' :: l' => (served h (prefix ++ pattern) r' ++ go l')%list
         end) sub
  end.

Definition served_by (h : endpoint) : list (method * string) :=
  flat_map (served h "") RegisterRoutes.

(* ================================================================== *)
(** ** The store's reading of the aggregate statement

    The pool hands the text and the parameters to PostgreSQL.  This is the
    part of its behaviour the repository relies on: the [WHERE] clause is a
    conjunction of terms over the columns of [subscriptions], [$i] stands
    for the i-th parameter counted from one, a comparison with [NULL] is
    unknown, and a row is selected when the clause is true.  Texts are
    compared byte by byte (the order of the [C] collation), which on
    values of the shape [MM-YYYY] is the order of any collation. *)

Module Pg.

Inductive value : Type :=
| VNull
| VText (s : string)
| VInt (n : Z)
| VUuid (u : UUID).

Definition of_arg (a : arg) : value :=
  match a with
  | AString s => VText s
  | AInt n => VInt n
  | AUuid u => VUuid u
  | AUuidPtr (Some u) => VUuid u
  | AUuidPtr None => VNull
  | AStringPtr (Some s) => VText s
  | AStringPtr None => VNull
  end.

(** A column of a row of [subscriptions] (the migration's table). *)
Definition column (name : string) (r : Subscription) : option value :=
  if String.eqb name "id" then Some (VInt (sub_ID r))
  else if String.eqb name "service_name" then Some (VText (sub_ServiceName r))
  else if String.eqb name "price" then Some (VInt (sub_Price r))
  else if String.eqb name "user_id" then Some (VUuid (sub_UserID r))
  else if String.eqb name "start_date" then Some (VText (sub_StartDate r))
  else if String.eqb name "end_date" then
    Some (match sub_EndDate r with Some s => VText s | None => VNull end)
  else None.

(** SQL's three truth values. *)
Inductive tri : Type := TTrue | TFalse | TUnknown.

Definition of_bool (b : bool) : tri := if b then TTrue else TFalse.

Definition tri_and (a b : tri) : tri :=
  match a, b with
  | TFalse, _ | _, TFalse => TFalse
  | TTrue, TTrue => TTrue
  | _, _ => TUnknown
  end.

Definition tri_or (a b : tri) : tri :=
  match a, b with
  | TTrue, _ | _, TTrue => TTrue
  | TFalse, TFalse => TFalse
  | _, _ => TUnknown
  end.

Inductive cond : Type :=
| CTrue
| CGe (col : string) (i : nat)
| CEq (col : string) (i : nat)
| CIsNull (col : string)
| COr (a b : cond)
| CAnd (a b : cond).

(** *** Reading the text *)

Definition is_ident_char (c : ascii) : bool :=
  let n := nat_of_ascii c in
  ((97 <=? n)%nat && (n <=? 122)%nat) || Ascii.eqb c "_".

Fixpoint read_ident (s : string) : string * string :=
  match s with
  | String c s' =>
      if is_ident_char c then
        let '(id, rest) := read_ident s' in (String c id, rest)
      else ("", s)
  | EmptyString => ("", s)
  end.

(** [lit] removed from the head of [s]. *)
Fixpoint expect (lit s : string) : option string :=
  match lit with
  | EmptyString => Some s
  | String c lit' =>
      match s with
      | String c' s' => if Ascii.eqb c c' then expect lit' s' else None
      | EmptyString => None
      end
  end.

(** [$i]. *)
Definition read_placeholder (s : string) : option (nat * string) :=
  match s with
  | String "$" (String c s') =>
      if is_digit c then Some (read_nat 0 (String c s')) else None
  | _ => None
  end.

(** [col >= $i], [col = $i] or [col IS NULL]. *)
Definition read_atom (s : string) : option (cond * string) :=
  match read_ident s with
  | (EmptyString, _) => None
  | (col, rest) =>
      match expect " >= " rest with
      | Some rest' =>
          option_map (fun '(i, r) => (CGe col i, r)) (read_placeholder rest')
      | None =>
          match expect " = " rest with
          | Some rest' =>
              option_map (fun '(i, r) => (CEq col i, r)) (read_placeholder rest')
          | None =>
              option_map (fun r => (CIsNull col, r)) (expect " IS NULL" rest)
          end
      end
  end.

(** [1=1], an atom, or [(atom OR atom)]. *)
Definition read_term (s : string) : option (cond * string) :=
  match expect "1=1" s with
  | Some rest => Some (CTrue, rest)
  | None =>
      match expect "(" s with
      | Some rest =>
          match read_atom rest with
          | Some (a, rest1) =>
              match expect " OR " rest1 with
              | Some rest2 =>
                  match read_atom rest2 with
                  | Some (b, rest3) =>
                      option_map (fun r => (COr a b, r)) (expect ")" rest3)
                  | None => None
                  end
              | None => None
              end
          | None => None
          end
      | None => read_atom s
      end
  end.

(** The terms that follow the first one, each after [ AND ]. *)
Fixpoint read_more (fuel : nat) (acc : cond) (s : string) : option cond :=
  match s with
  | EmptyString => Some acc
  | _ =>
      match fuel with
      | O => None
      | S fuel' =>
          match expect " AND " s with
          | Some rest =>
              match read_term rest with
              | Some (c, rest') => read_more fuel' (CAnd acc c) rest'
              | None => None
              end
          | None => None
          end
      end
  end.

Definition select_cost : string :=
  "SELECT COALESCE(SUM(price), 0) as total_cost, COUNT(*) as count FROM subscriptions WHERE ".

(** The condition of an aggregate statement over [subscriptions]. *)
Definition read_where (query : string) : option cond :=
  match expect select_cost query with
  | Some rest =>
      match read_term rest with
      | Some (c, rest') => read_more (String.length rest') c rest'
      | None => None
      end
  | None => None
  end.

(** *** Evaluating the condition on a row *)

Definition param (args : list arg) (i : nat) : option value :=
  match i with
  | O => None
  | S j => option_map of_arg (nth_error args j)
  end.

(** [a >= b]; [None] when the operands have no common type. *)
Definition ge_val (a b : value) : option tri :=
  match a, b with
  | VNull, _ | _, VNull => Some TUnknown
  | VText x, VText y => Some (of_bool (String.leb y x))
  | VInt x, VInt y => Some (of_bool (y <=? x)%Z)
  | _, _ => None
  end.

Definition eq_val (a b : value) : option tri :=
  match a, b with
  | VNull, _ | _, VNull => Some TUnknown
  | VText x, VText y => Some (of_bool (String.eqb x y))
  | VInt x, VInt y => Some (of_bool (x =? y)%Z)
  | VUuid x, VUuid y => Some (of_bool (uuid_eqb x y))
  | _, _ => None
  end.

Definition lift2 {A B C : Type} (f : A -> B -> C) (a : option A) (b : option B)
  : option C :=
  match a, b with
  | Some x, Some y => Some (f x y)
  | _, _ => None
  end.

Definition join {A : Type} (a : option (option A)) : option A :=
  match a with Some x => x | None => None end.

Fixpoint eval (c : cond) (args : list arg) (r : Subscription) : option tri :=
  match c with
  | CTrue => Some TTrue
  | CGe col i => join (lift2 ge_val (column col r) (param args i))
  | CEq col i => join (lift2 eq_val (column col r) (param args i))
  | CIsNull col =>
      option_map (fun v => match v with VNull => TTrue | _ => TFalse end)
                 (column col r)
  | COr a b => lift2 tri_or (eval a args r) (eval b args r)
  | CAnd a b => lift2 tri_and (eval a args r) (eval b args r)
  end.

(** Whether the statement selects the row; [None] when the store would
    refuse the statement. *)
Definition selects (query : string) (args : list arg) (r : Subscription)
  : option bool :=
  match read_where query with
  | Some c =>
      option_map (fun t => match t with TTrue => true | _ => false end)
                 (eval c args r)
  | None => None
  end.

(** The answer to [QueryRowCost] on a table: the two aggregates over the
    selected rows. *)
Fixpoint aggregate (query : string) (args : list arg) (table : list Subscription)
  : Z * Z + error :=
  match table with
  | [] => inl (0, 0)%Z
  | r :: table' =>
      match selects query args r, aggregate query args table' with
      | Some b, inl (total, count) =>
          inl (if b then (sub_Price r + total, count + 1)%Z else (total, count))
      | None, _ => inr "statement refused"
      | _, inr e => inr e
      end
  end.

(** The terms of a conjunction, first to last. *)
Fixpoint conjuncts (c : cond) : list cond :=
  match c with
  | CAnd a b => (conjuncts a ++ [b])%list
  | _ => [c]
  end.

End Pg.

(** The placeholder numbers of a statement, in the order of the text. *)
Fixpoint placeholders (s : string) : list nat :=
  match s with
  | String c s' =>
      if Ascii.eqb c "$" then fst (read_nat 0 s') :: placeholders s'
      else placeholders s'
  | EmptyString => []
  end.

(** Whether [needle] occurs in [text]. *)
Fixpoint contains (needle text : string) : bool :=
  String.prefix needle text ||
  match text with
  | String _ text' => contains needle text'
  | EmptyString => false
  end.

(* ================================================================== *)
(** ** The error kinds of the specification

    The source has no error types, only messages.  The kinds the
    specification names are read as the messages of the checks they
    belong to: the period validator has two, one for the empty string and
    one for every other string that is not a period. *)

Definition MissingDateRange (e : error) : Prop :=
  e = "at least one date parameter is required".

Definition InvalidPeriodFormat (e : error) : Prop :=
  e = "date cannot be empty" \/ e = "date must be in MM-YYYY format".

(** The shape the specification names: two digits, a hyphen, four digits. *)
Definition decimal_digit (c : ascii) : Prop :=
  In c ["0"; "1"; "2"; "3"; "4"; "5"; "6"; "7"; "8"; "9"]%char.

Definition MM_YYYY (s : string) : Prop :=
  exists m1 m2 y1 y2 y3 y4 : ascii,
    decimal_digit m1 /\ decimal_digit m2 /\
    decimal_digit y1 /\ decimal_digit y2 /\ decimal_digit y3 /\ decimal_digit y4 /\
    s = String m1 (String m2 (String "-"
          (String y1 (String y2 (String y3 (String y4 EmptyString)))))).

(* ================================================================== *)
(** ** The notions of the statements *)

(** What the matcher computes on the validator's pattern. *)
Definition period_shape (s : string) : bool :=
  match s with
  | String m1 (String m2 (String h
      (String y1 (String y2 (String y3 (String y4 EmptyString)))))) =>
      is_digit m1 && is_digit m2 && Ascii.eqb h "-" &&
      is_digit y1 && is_digit y2 && is_digit y3 && is_digit y4
  | _ => false
  end.

(** The rules on the five fields of a request. *)
Definition valid_fields (name : string) (price : Z) (user : UUID)
    (startDate : string) (endDate : option string) : Prop :=
  name <> "" /\ (0 < price)%Z /\ user <> uuid_Nil /\
  validateDateFormat startDate = None /\
  (forall d, endDate = Some d -> d <> "" -> validateDateFormat d = None).

(** A program that logs the failed validation and returns the error. *)
Definition rejected {A : Type} (p : Prog svcE (option A * option error))
    (fields : error -> list (string * logval)) (err : error) : Prop :=
  p = Vis (Log Warn "Validation failed" (fields err)) (fun _ => Ret (None, Some err)).

(** The request that [UpdateSubscription] validates. *)
Definition as_create (req : UpdateSubscriptionRequest) : CreateSubscriptionRequest :=
  {| ServiceName := upd_ServiceName req;
     Price := upd_Price req;
     UserID := upd_UserID req;
     StartDate := upd_StartDate req;
     EndDate := upd_EndDate req |}.

(** The operation returns [err] at once: no call, no result value. *)
Definition fails_with (p : Prog svcE (option CostResponse * option error))
    (err : error) : Prop :=
  p = Ret (None, Some err).

(** The operation makes one call, the aggregate read with the arguments it
    was given, and answers from it: the two totals when the read
    succeeded, the error of the read and no result value when it failed. *)
Definition reads_store (p : Prog svcE (option CostResponse * option error))
    (startDate endDate : string) (userID : option UUID)
    (serviceName : option string) : Prop :=
  exists k,
    p = Vis (RepoGetCostByPeriod startDate endDate userID serviceName) k /\
    (forall totalCost count,
        k (totalCost, count, None) =
        Ret (Some {| TotalCost := totalCost; Count := count |}, None)) /\
    (forall totalCost count err,
        k (totalCost, count, Some err) = Ret (None, Some err)).

(* ================================================================== *)
(** ** The query builder, as the specification describes it *)

(** The unconditional clause every statement starts from. *)
Definition base_clause : string :=
  "SELECT COALESCE(SUM(price), 0) as total_cost, COUNT(*) as count FROM subscriptions WHERE 1=1".

(** The builder as the specification describes it: the filters that are
    present, in the order start, end, user, service; for each its
    predicate, numbered by its position, and its parameter. *)
Inductive filter : Type :=
| ByStart (startDate : string)
| ByEnd (endDate : string)
| ByUser (userID : UUID)
| ByService (name : string).

Definition present (startDate endDate : string)
    (userID : option UUID) (serviceName : option string) : list filter :=
  ((if String.eqb startDate "" then [] else [ByStart startDate]) ++
   (if String.eqb endDate "" then [] else [ByEnd endDate]) ++
   (match userID with Some u => [ByUser u] | None => [] end) ++
   (match serviceName with Some name => [ByService name] | None => [] end))%list.

Definition predicate (f : filter) (i : nat) : string :=
  match f with
  | ByStart _ => " AND start_date >= $" ++ sprintf_d (Z.of_nat i)
  | ByEnd _ => " AND (end_date IS NULL OR end_date >= $" ++ sprintf_d (Z.of_nat i) ++ ")"
  | ByUser _ => " AND user_id = $" ++ sprintf_d (Z.of_nat i)
  | ByService _ => " AND service_name = $" ++ sprintf_d (Z.of_nat i)
  end.

Definition parameter (f : filter) : arg :=
  match f with
  | ByStart startDate => AString startDate
  | ByEnd endDate => AString endDate
  | ByUser userID => AUuidPtr (Some userID)
  | ByService name => AString name
  end.

Fixpoint predicates_from (i : nat) (fs : list filter) : string :=
  match fs with
  | [] => ""
  | f :: fs' => predicate f i ++ predicates_from (S i) fs'
  end.

(** What a filter asks of a row. *)
Definition holds (r : Subscription) (f : filter) : bool :=
  match f with
  | ByStart startDate => String.leb startDate (sub_StartDate r)
  | ByEnd endDate =>
      match sub_EndDate r with
      | None => true
      | Some d => String.leb endDate d
      end
  | ByUser userID => uuid_eqb (sub_UserID r) userID
  | ByService name => String.eqb (sub_ServiceName r) name
  end.

(** What the end-period filter asks of a row: nothing when the filter
    is empty, otherwise that the stored end period is absent or not
    below the filter in the order of strings. *)
Definition end_period_holds (e : string) (r : Subscription) : bool :=
  if String.eqb e "" then true
  else match sub_EndDate r with
       | None => true
       | Some d => String.leb e d
       end.

(* ================================================================== *)
(** ** Requests and rows of the tests *)

(** A fixed identifier other than [uuid.Nil], in place of [uuid.New()]. *)
Definition some_user : UUID := repeat "001"%char 16.

(** The request of [TestServiceCreateSubscription_Success] and the one of
    the case "Invalid price" of [TestCreateSubscription_Validation]. *)
Definition netflix_request : CreateSubscriptionRequest :=
  {| ServiceName := "Netflix"; Price := 100; UserID := some_user;
     StartDate := "01-2025"; EndDate := None |}.

Definition free_request : CreateSubscriptionRequest :=
  {| ServiceName := "Netflix"; Price := 0; UserID := some_user;
     StartDate := "01-2025"; EndDate := None |}.

(** The request of [TestServiceUpdateSubscription_Success], and the same
    request without a price. *)
Definition premium_update : UpdateSubscriptionRequest :=
  {| upd_ServiceName := "Netflix Premium"; upd_Price := 150; upd_UserID := some_user;
     upd_StartDate := "01-2025"; upd_EndDate := None |}.

Definition priceless_update : UpdateSubscriptionRequest :=
  {| upd_ServiceName := "Netflix Premium"; upd_Price := 0; upd_UserID := some_user;
     upd_StartDate := "01-2025"; upd_EndDate := None |}.

(** The table of [TestRepository_GetCostByPeriod]: two subscriptions of one
    user, with no end period. *)
Definition two_subscriptions : list Subscription :=
  [ {| sub_ID := 1; sub_ServiceName := "Netflix"; sub_Price := 100;
       sub_UserID := some_user; sub_StartDate := "01-2025"; sub_EndDate := None;
       sub_CreatedAt := 0; sub_UpdatedAt := 0 |};
    {| sub_ID := 2; sub_ServiceName := "Spotify"; sub_Price := 50;
       sub_UserID := some_user; sub_StartDate := "01-2025"; sub_EndDate := None;
       sub_CreatedAt := 0; sub_UpdatedAt := 0 |} ].

(* ================================================================== *)
(** ** The rest of the pool's interface

    [GetAll] reads through a cursor and [Delete] executes a statement; the
    other methods use the [QueryRow] calls above. *)

(** The cursor that [Query] returns, as the repository sees it: for each
    row in turn the outcome of [rows.Scan] into the fields of a
    subscription, and [rows.Err()], the error that ended the iteration
    early, if one did. *)
Record Rows : Type := {
  scans : list (Subscription + error);
  rows_Err : option error
}.

Inductive poolE : Type -> Type :=
| Pool (X : Type) (e : dbE X) : poolE X
| Query (query : string) (args : list arg) : poolE (Rows + error)
| RowsClose : poolE unit
| Exec (query : string) (args : list arg) : poolE (Z + error).

Arguments Pool {X} e.

(** A program over the smaller interface, in the larger one. *)
Definition in_pool {A : Type} (p : Prog dbE A) : Prog poolE A :=
  interp (fun X e => call (Pool e)) p.

(* ================================================================== *)
(** ** repository.go: [GetAll], [GetByID], [Delete] *)

(** The loop [for rows.Next() { rows.Scan(...); append }]: the
    subscriptions scanned so far, or the first error of [Scan]. *)
Fixpoint scan_rows (l : list (Subscription + error)) (subscriptions : list Subscription)
  : list Subscription + error :=
  match l with
  | [] => inl subscriptions
  | inl sub :: l' => scan_rows l' (subscriptions ++ [sub])%list
  | inr err :: _ => inr err
  end.

(** A nil slice is [None]; [make([]Subscription, 0)] is [Some []]. *)
Definition repo_GetAll : Prog poolE (option (list Subscription) * option error) :=
  r <- call (Query
       "SELECT id, service_name, price, user_id, start_date, end_date, created_at, updated_at FROM subscriptions ORDER BY created_at DESC"
       []) ;;
  match r with
  | inr err =>
      call (Pool (DbLog Error "Failed to query subscriptions" [("error", LStr err)])) ;;;
      Ret (None, Some (wrap "failed to query subscriptions" err))
  | inl rows =>
      match scan_rows (scans rows) [] with
      | inr err =>
          call (Pool (DbLog Error "Failed to scan subscription" [("error", LStr err)])) ;;;
          call RowsClose ;;;
          Ret (None, Some (wrap "failed to scan subscription" err))
      | inl subscriptions =>
          call (Pool (DbLog Info "Retrieved all subscriptions"
                        [("count", LInt (Z.of_nat (length subscriptions)))])) ;;;
          call RowsClose ;;;
          Ret (Some subscriptions, None)
      end
  end.

Definition repo_GetByID (id : Z) : Prog dbE (option Subscription * option error) :=
  r <- call (QueryRowSubscription
       "SELECT id, service_name, price, user_id, start_date, end_date, created_at, updated_at FROM subscriptions WHERE id = $1"
       [AInt id]) ;;
  match r with
  | inr err =>
      call (DbLog Warn "Subscription not found" [("id", LInt id)]) ;;;
      Ret (None, Some (wrap "subscription not found" err))
  | inl sub => Ret (Some sub, None)
  end.

(** [Exec] answers with [RowsAffected()]. *)
Definition repo_Delete (id : Z) : Prog poolE (option error) :=
  r <- call (Exec "DELETE FROM subscriptions WHERE id=$1" [AInt id]) ;;
  match r with
  | inr err =>
      call (Pool (DbLog Error "Failed to delete subscription"
                    [("error", LStr err); ("id", LInt id)])) ;;;
      Ret (Some (wrap "failed to delete subscription" err))
  | inl rowsAffected =>
      if (rowsAffected =? 0)%Z then
        call (Pool (DbLog Warn "Subscription not found for deletion" [("id", LInt id)])) ;;;
        Ret (Some "subscription not found")
      else
        call (Pool (DbLog Info "Subscription deleted" [("id", LInt id)])) ;;;
        Ret None
  end.

(* ================================================================== *)
(** ** The whole [SubscriptionRepository], and the rest of service.go *)

Inductive repoE : Type -> Type :=
| Svc (X : Type) (e : svcE X) : repoE X
| RepoGetAll : repoE (option (list Subscription) * option error)
| RepoGetByID (id : Z) : repoE (option Subscription * option error)
| RepoDelete (id : Z) : repoE (option error).

Arguments Svc {X} e.

Definition in_repo {A : Type} (p : Prog svcE A) : Prog repoE A :=
  interp (fun X e => call (Svc e)) p.

Definition GetAllSubscriptions : Prog repoE (option (list Subscription) * option error) :=
  call RepoGetAll.

Definition GetSubscriptionByID (id : Z) : Prog repoE (option Subscription * option error) :=
  call (RepoGetByID id).

Definition DeleteSubscription (id : Z) : Prog repoE (option error) :=
  call (RepoDelete id).

(** [NewRepository], every method. *)
Definition repository_all (X : Type) (e : repoE X) : Prog poolE X :=
  match e in repoE T return Prog poolE T with
  | Svc e' => in_pool (repository e')
  | RepoGetAll => repo_GetAll
  | RepoGetByID id => in_pool (repo_GetByID id)
  | RepoDelete id => repo_Delete id
  end.

(** Every call on every path of a program has the property. *)
Inductive always {E : Type -> Type} {A : Type}
    (P : forall X, E X -> Prop) : Prog E A -> Prop :=
| always_Ret (a : A) : always P (Ret a)
| always_Vis (X : Type) (e : E X) (k : X -> Prog E A) :
    P X e -> (forall x, always P (k x)) -> always P (Vis e k).

(** Every value a program can return. *)
Inductive returns {E : Type -> Type} {A : Type}
    (Q : A -> Prop) : Prog E A -> Prop :=
| returns_Ret (a : A) : Q a -> returns Q (Ret a)
| returns_Vis (X : Type) (e : E X) (k : X -> Prog E A) :
    (forall x, returns Q (k x)) -> returns Q (Vis e k).

(** The statement of a call to the pool, when it carries one. *)
Definition statement_of (X : Type) (e : poolE X) : option (string * list arg) :=
  match e with
  | Pool (QueryRowSubscription query args) => Some (query, args)
  | Pool (QueryRowCost query args) => Some (query, args)
  | Pool (DbLog _ _ _) => None
  | Query query args => Some (query, args)
  | RowsClose => None
  | Exec query args => Some (query, args)
  end.

(** The placeholders of the text are $1, ..., $n for n parameters. *)
Definition well_numbered (X : Type) (e : poolE X) : Prop :=
  match statement_of e with
  | Some (query, args) => placeholders query = seq 1 (length args)
  | None => True
  end.

(** A result and an error of which exactly one is nil. *)
Definition one_of {R : Type} (r : option R * option error) : Prop :=
  match r with
  | (Some _, None) | (None, Some _) => True
  | _ => False
  end.

(** Every value a program can return, on the paths where each call is
    answered within [post]. *)
Inductive returns_given {E : Type -> Type} {A : Type}
    (post : forall X, E X -> X -> Prop) (Q : A -> Prop) : Prog E A -> Prop :=
| returns_given_Ret (a : A) : Q a -> returns_given post Q (Ret a)
| returns_given_Vis (X : Type) (e : E X) (k : X -> Prog E A) :
    (forall x, post X e x -> returns_given post Q (k x)) ->
    returns_given post Q (Vis e k).

(** The calls of a run, in order. *)
Inductive event (E : Type -> Type) : Type :=
| Event (X : Type) (e : E X).

Arguments Event {E X} e.

Definition selected {E : Type -> Type} (w : forall X, E X -> bool) (ev : event E) : bool :=
  match ev with
  | Event e => w _ e
  end.

Fixpoint trace {E : Type -> Type} {S A : Type}
    (h : forall X, E X -> S -> X * S) (p : Prog E A) (s : S) : list (event E) :=
  match p with
  | Ret _ => []
  | Vis e k => let '(x, s') := h _ e s in Event e :: trace h (k x) s'
  end.

(* ================================================================== *)
(** ** handler.go

    A handler reads the request, calls the [SubscriptionService] and the
    logger, and writes to the [http.ResponseWriter].  What the standard
    library and the other packages compute (the number in the path, the
    UUID in the query, the JSON in the body) is taken as given. *)

Record Env : Type := {
  Atoi : string -> Z + error;
  uuid_Parse : string -> UUID + error;
  Unmarshal_create : string -> CreateSubscriptionRequest + error;
  Unmarshal_update : string -> UpdateSubscriptionRequest + error
}.

(** The parts of [*http.Request] the handlers read: [chi.URLParam(r, key)],
    [r.URL.Query().Get(key)] and [io.ReadAll(r.Body)]. *)
Record Request : Type := {
  URLParam : string -> string;
  Query_Get : string -> string;
  Body : string + error
}.

(** The [Data] of a [Response]: nothing, the slice of [GetAll], a
    [*Subscription], a [*CostResponse], or a [map[string]string]. *)
Inductive data : Type :=
| DNone
| DSubscriptions (subs : option (list Subscription))
| DSubscription (sub : option Subscription)
| DCost (cost : option CostResponse)
| DMessage (m : list (string * string)).

Record Response : Type := {
  resp_Status : string;
  resp_Data : data;
  resp_Error : string
}.

Definition success (d : data) : Response :=
  {| resp_Status := "success"; resp_Data := d; resp_Error := "" |}.

Definition failure (e : string) : Response :=
  {| resp_Status := "error"; resp_Data := DNone; resp_Error := e |}.

(** Logger and [http.ResponseWriter]. *)
Inductive httpE : Type -> Type :=
| HLog (lv : level) (message : string) (fields : list (string * logval)) : httpE unit
| SetHeader (key value : string) : httpE unit
| WriteHeader (status : Z) : httpE unit
| Encode (body : Response) : httpE unit.

(** [SubscriptionService]. *)
Inductive serviceE : Type -> Type :=
| SvcGetAllSubscriptions : serviceE (option (list Subscription) * option error)
| SvcGetSubscriptionByID (id : Z) : serviceE (option Subscription * option error)
| SvcCreateSubscription (req : CreateSubscriptionRequest) :
    serviceE (option Subscription * option error)
| SvcUpdateSubscription (id : Z) (req : UpdateSubscriptionRequest) :
    serviceE (option Subscription * option error)
| SvcDeleteSubscription (id : Z) : serviceE (option error)
| SvcGetCostByPeriod (startDate endDate : string)
    (userID : option UUID) (serviceName : option string) :
    serviceE (option CostResponse * option error).

Inductive sum1 (E F : Type -> Type) (X : Type) : Type :=
| inl1 (e : E X)
| inr1 (f : F X).

Arguments inl1 {E F X} e.
Arguments inr1 {E F X} f.

Definition handlerE : Type -> Type := sum1 httpE serviceE.

(** How a handler ends: it returns, or it panics on a nil pointer. *)
Inductive outcome : Type := Returned | Panicked.

Module Handler.

Definition log (lv : level) (message : string) (fields : list (string * logval))
  : Prog handlerE unit :=
  call (inl1 (HLog lv message fields)).

Definition writeJSON (status : Z) (body : Response) : Prog handlerE unit :=
  call (inl1 (SetHeader "Content-Type" "application/json")) ;;;
  call (inl1 (WriteHeader status)) ;;;
  call (inl1 (Encode body)).

Definition StatusOK : Z := 200.
Definition StatusCreated : Z := 201.
Definition StatusBadRequest : Z := 400.
Definition StatusNotFound : Z := 404.
Definition StatusInternalServerError : Z := 500.

Definition GetSubscriptions (r : Request) : Prog handlerE outcome :=
  log Info "GET /subscriptions" [] ;;;
  '(subs, err) <- call (inr1 SvcGetAllSubscriptions) ;;
  match err with
  | Some e =>
      log Error "Failed to fetch subscriptions" [("error", LStr e)] ;;;
      writeJSON StatusInternalServerError (failure "Failed to fetch subscriptions") ;;;
      Ret Returned
  | None =>
      writeJSON StatusOK (success (DSubscriptions subs)) ;;;
      Ret Returned
  end.

Definition CreateSubscription (env : Env) (r : Request) : Prog handlerE outcome :=
  log Info "POST /subscriptions" [] ;;;
  match Body r with
  | inr err =>
      log Error "Invalid request body" [("error", LStr err)] ;;;
      writeJSON StatusBadRequest (failure "Invalid request body") ;;;
      Ret Returned
  | inl body =>
      match Unmarshal_create env body with
      | inr err =>
          log Error "Invalid JSON" [("error", LStr err)] ;;;
          writeJSON StatusBadRequest (failure "Invalid JSON") ;;;
          Ret Returned
      | inl req =>
          '(sub, err) <- call (inr1 (SvcCreateSubscription req)) ;;
          match err with
          | Some e =>
              log Error "Failed to create subscription" [("error", LStr e)] ;;;
              writeJSON StatusBadRequest (failure e) ;;;
              Ret Returned
          | None =>
              match sub with
              | None => Ret Panicked
              | Some created =>
                  log Info "Subscription created successfully"
                      [("id", LInt (sub_ID created))] ;;;
                  writeJSON StatusCreated (success (DSubscription sub)) ;;;
                  Ret Returned
              end
          end
      end
  end.

Definition UpdateSubscription (env : Env) (r : Request) : Prog handlerE outcome :=
  match Atoi env (URLParam r "id") with
  | inr err =>
      log Error "Invalid subscription ID" [("error", LStr err)] ;;;
      writeJSON StatusBadRequest (failure "Invalid subscription ID") ;;;
      Ret Returned
  | inl id =>
      log Info "PATCH /subscriptions/{id}" [("id", LInt id)] ;;;
      match Body r with
      | inr err =>
          log Error "Invalid request body" [("error", LStr err)] ;;;
          writeJSON StatusBadRequest (failure "Invalid request body") ;;;
          Ret Returned
      | inl body =>
          match Unmarshal_update env body with
          | inr err =>
              log Error "Invalid JSON" [("error", LStr err)] ;;;
              writeJSON StatusBadRequest (failure "Invalid JSON") ;;;
              Ret Returned
          | inl req =>
              '(sub, err) <- call (inr1 (SvcUpdateSubscription id req)) ;;
              match err with
              | Some e =>
                  log Error "Failed to update subscription"
                      [("error", LStr e); ("id", LInt id)] ;;;
                  writeJSON StatusNotFound (failure e) ;;;
                  Ret Returned
              | None =>
                  log Info "Subscription updated successfully" [("id", LInt id)] ;;;
                  writeJSON StatusOK (success (DSubscription sub)) ;;;
                  Ret Returned
              end
          end
      end
  end.

Definition DeleteSubscription (env : Env) (r : Request) : Prog handlerE outcome :=
  match Atoi env (URLParam r "id") with
  | inr err =>
      log Error "Invalid subscription ID" [("error", LStr err)] ;;;
      writeJSON StatusBadRequest (failure "Invalid subscription ID") ;;;
      Ret Returned
  | inl id =>
      log Info "DELETE /subscriptions/{id}" [("id", LInt id)] ;;;
      err <- call (inr1 (SvcDeleteSubscription id)) ;;
      match err with
      | Some e =>
          log Error "Failed to delete subscription"
              [("error", LStr e); ("id", LInt id)] ;;;
          writeJSON StatusNotFound (failure e) ;;;
          Ret Returned
      | None =>
          log Info "Subscription deleted successfully" [("id", LInt id)] ;;;
          writeJSON StatusOK
            (success (DMessage [("message", "Subscription deleted")])) ;;;
          Ret Returned
      end
  end.

Definition GetCostByPeriod (env : Env) (r : Request) : Prog handlerE outcome :=
  log Info "GET /subscriptions/cost" [] ;;;
  let startDate := Query_Get r "start_date" in
  let endDate := Query_Get r "end_date" in
  let userIDStr := Query_Get r "user_id" in
  let serviceName := Query_Get r "service_name" in
  let finish (userID : option UUID) : Prog handlerE outcome :=
    let serviceNamePtr :=
      if negb (String.eqb serviceName "") then Some serviceName else None in
    '(cost, err) <-
       call (inr1 (SvcGetCostByPeriod startDate endDate userID serviceNamePtr)) ;;
    match err with
    | Some e =>
        log Error "Failed to calculate cost" [("error", LStr e)] ;;;
        writeJSON StatusBadRequest (failure e) ;;;
        Ret Returned
    | None =>
        match cost with
        | None => Ret Panicked
        | Some c =>
            log Info "Cost calculated successfully"
                [("total", LInt (TotalCost c)); ("count", LInt (Count c))] ;;;
            writeJSON StatusOK (success (DCost cost)) ;;;
            Ret Returned
        end
    end in
  if negb (String.eqb userIDStr "") then
    match uuid_Parse env userIDStr with
    | inr err =>
        log Error "Invalid user ID format"
            [("error", LStr err); ("user_id", LStr userIDStr)] ;;;
        writeJSON StatusBadRequest (failure "Invalid user ID format") ;;;
        Ret Returned
    | inl uid => finish (Some uid)
    end
  else finish None.

(** [RegisterRoutes]: the handler behind each endpoint. *)
Definition dispatch (env : Env) (h : endpoint) (r : Request) : Prog handlerE outcome :=
  match h with
  | HGetSubscriptions => GetSubscriptions r
  | HCreateSubscription => CreateSubscription env r
  | HGetCostByPeriod => GetCostByPeriod env r
  | HUpdateSubscription => UpdateSubscription env r
  | HDeleteSubscription => DeleteSubscription env r
  end.

End Handler.

(* ================================================================== *)
(** ** main.go: the three layers put together *)

(** [NewService(repo, log)]: the service as the implementation of the
    handlers' interface. *)
Definition service (X : Type) (e : serviceE X) : Prog repoE X :=
  match e in serviceE T return Prog repoE T with
  | SvcGetAllSubscriptions => GetAllSubscriptions
  | SvcGetSubscriptionByID id => GetSubscriptionByID id
  | SvcCreateSubscription req => in_repo (CreateSubscription req)
  | SvcUpdateSubscription id req => in_repo (UpdateSubscription id req)
  | SvcDeleteSubscription id => DeleteSubscription id
  | SvcGetCostByPeriod startDate endDate userID serviceName =>
      in_repo (GetCostByPeriod startDate endDate userID serviceName)
  end.

(** What is left once handler, service and repository are linked: the
    logger and response writer of the handler, and the pool. *)
Definition stackE : Type -> Type := sum1 httpE poolE.

Definition to_stack {A : Type} (p : Prog poolE A) : Prog stackE A :=
  interp (fun X e => call (inr1 e)) p.

Definition stack (X : Type) (e : handlerE X) : Prog stackE X :=
  match e with
  | inl1 h => call (inl1 h)
  | inr1 s => to_stack (interp repository_all (service s))
  end.

(** A handler over the pool. *)
Definition serve {A : Type} (p : Prog handlerE A) : Prog stackE A := interp stack p.

(** The status codes written, the bodies encoded and the statements sent
    to the pool in a run. *)
Definition statuses {F : Type -> Type} (tr : list (event (sum1 httpE F))) : list Z :=
  flat_map (fun ev =>
    match ev with
    | Event (inl1 (WriteHeader status)) => [status]
    | _ => []
    end) tr.

Definition bodies {F : Type -> Type} (tr : list (event (sum1 httpE F))) : list Response :=
  flat_map (fun ev =>
    match ev with
    | Event (inl1 (Encode body)) => [body]
    | _ => []
    end) tr.

Definition statements (tr : list (event stackE)) : list (string * list arg) :=
  flat_map (fun ev =>
    match ev with
    | Event (inr1 e) =>
        match statement_of e with
        | Some st => [st]
        | None => []
        end
    | _ => []
    end) tr.

(* ================================================================== *)
(** ** What each layer promises the one above *)

(** The repository's methods that return a result and an error return
    exactly one of them. *)
Definition repo_post (X : Type) (e : repoE X) : X -> Prop :=
  match e in repoE T return T -> Prop with
  | Svc e' =>
      match e' in svcE T return T -> Prop with
      | RepoCreate _ => one_of
      | RepoUpdate _ _ => one_of
      | _ => fun _ => True
      end
  | RepoGetAll => one_of
  | RepoGetByID _ => one_of
  | RepoDelete _ => fun _ => True
  end.

(** And so do the methods of the service. *)
Definition service_post (X : Type) (e : serviceE X) : X -> Prop :=
  match e in serviceE T return T -> Prop with
  | SvcGetAllSubscriptions => one_of
  | SvcGetSubscriptionByID _ => one_of
  | SvcCreateSubscription _ => one_of
  | SvcUpdateSubscription _ _ => one_of
  | SvcDeleteSubscription _ => fun _ => True
  | SvcGetCostByPeriod _ _ _ _ => one_of
  end.

Definition handler_post (X : Type) (e : handlerE X) : X -> Prop :=
  match e with
  | inl1 _ => fun _ => True
  | inr1 s => service_post s
  end.

(** A kind of call to the response writer, among the calls of a handler
    and among those of the linked program. *)
Definition on_http {F : Type -> Type} (f : forall X, httpE X -> bool)
    (X : Type) (e : sum1 httpE F X) : bool :=
  match e with
  | inl1 h => f X h
  | inr1 _ => false
  end.

Definition writes_status (X : Type) (h : httpE X) : bool :=
  match h with
  | WriteHeader _ => true
  | _ => false
  end.

Definition writes_body (X : Type) (h : httpE X) : bool :=
  match h with
  | Encode _ => true
  | _ => false
  end.

(** Paths with a counter: [n] calls selected by [w] so far; on the paths
    where each call is answered within [post], the program returns with
    the counter and the value in [Q]. *)
Inductive counts {E : Type -> Type} {A : Type}
    (w : forall X, E X -> bool) (post : forall X, E X -> X -> Prop)
    (Q : nat -> A -> Prop) : nat -> Prog E A -> Prop :=
| counts_Ret (n : nat) (a : A) : Q n a -> counts w post Q n (Ret a)
| counts_Vis (n : nat) (X : Type) (e : E X) (k : X -> Prog E A) :
    (forall x, post X e x -> counts w post Q (if w X e then S n else n) (k x)) ->
    counts w post Q n (Vis e k).

Definition anything {E : Type -> Type} (X : Type) (e : E X) (x : X) : Prop := True.

(* ================================================================== *)
(** ** Stand-ins *)

(** A pool that answers every call of a kind in the same way, and counts
    the calls. *)
Record Answers : Type := {
  to_QueryRowSubscription : Subscription + error;
  to_QueryRowCost : Z * Z + error;
  to_Query : Rows + error;
  to_Exec : Z + error
}.

Definition answering (a : Answers) (X : Type) (e : poolE X) (calls : nat) : X * nat :=
  (match e in poolE T return T with
   | Pool d =>
       match d in dbE T return T with
       | DbLog _ _ _ => tt
       | QueryRowSubscription _ _ => to_QueryRowSubscription a
       | QueryRowCost _ _ => to_QueryRowCost a
       end
   | Query _ _ => to_Query a
   | RowsClose => tt
   | Exec _ _ => to_Exec a
   end, S calls).

Definition discard (X : Type) (e : httpE X) : X :=
  match e in httpE T return T with
  | HLog _ _ _ => tt
  | SetHeader _ _ => tt
  | WriteHeader _ => tt
  | Encode _ => tt
  end.

Definition answering_stack (a : Answers) (X : Type) (e : stackE X) (calls : nat)
  : X * nat :=
  match e with
  | inl1 h => (discard h, calls)
  | inr1 d => answering a d calls
  end.

(** The [MockService] of the handler tests with no function set: an empty
    slice from [GetAllSubscriptions], nil everywhere else. *)
Definition MockService (X : Type) (e : handlerE X) (s : unit) : X * unit :=
  (match e with
   | inl1 h => discard h
   | inr1 c =>
       match c in serviceE T return T with
       | SvcGetAllSubscriptions => (Some [], None)
       | SvcGetSubscriptionByID _ => (None, None)
       | SvcCreateSubscription _ => (None, None)
       | SvcUpdateSubscription _ _ => (None, None)
       | SvcDeleteSubscription _ => None
       | SvcGetCostByPeriod _ _ _ _ => (None, None)
       end
   end, s).

(** The statement of [GetAll]. *)
Definition select_all : string :=
  "SELECT id, service_name, price, user_id, start_date, end_date, created_at, updated_at FROM subscriptions ORDER BY created_at DESC".

(** A cursor over the two rows of the test table that ends with an error
    of the connection, and a pool that answers [Query] with it. *)
Definition broken_cursor : Rows :=
  {| scans := map inl two_subscriptions; rows_Err := Some "unexpected EOF" |}.

Definition pool_with_broken_cursor : Answers :=
  {| to_QueryRowSubscription := inr "no rows in result set";
     to_QueryRowCost := inl (0, 0)%Z;
     to_Query := inl broken_cursor;
     to_Exec := inl 0%Z |}.

(** What stands for the standard library in the examples: the path
    parameter ["1"] is the number 1, no text is a UUID, and every body
    decodes to the given requests. *)
Definition decoding (c : CreateSubscriptionRequest) (u : UpdateSubscriptionRequest) : Env :=
  {| Atoi := fun s => if String.eqb s "1" then inl 1%Z else inr "invalid syntax";
     uuid_Parse := fun _ => inr "invalid UUID length";
     Unmarshal_create := fun _ => inl c;
     Unmarshal_update := fun _ => inl u |}.

(** A request for the subscription 1 with the given query and a body. *)
Definition request_1 (query : string -> string) : Request :=
  {| URLParam := fun key => if String.eqb key "id" then "1" else "";
     Query_Get := query;
     Body := inl "{}" |}.

Definition no_query (key : string) : string := "".


(** The query [user_id=invalid-uuid] of [TestGetCostByPeriod_InvalidUserID],
    without its dates. *)
Definition bad_user_query (key : string) : string :=
  if String.eqb key "user_id" then "invalid-uuid" else "".

(** A pool in which no row has the identifier asked for. *)
Definition empty_pool : Answers :=
  {| to_QueryRowSubscription := inr "no rows in result set";
     to_QueryRowCost := inl (0, 0)%Z;
     to_Query := inl {| scans := []; rows_Err := None |};
     to_Exec := inl 0%Z |}.

(** A pool that has lost its connection. *)
Definition closed_pool : Answers :=
  {| to_QueryRowSubscription := inr "closed pool";
     to_QueryRowCost := inr "closed pool";
     to_Query := inr "closed pool";
     to_Exec := inr "closed pool" |}.

(** The user filter of a cost request, as the handler reads it: none when
    the parameter is empty, otherwise the parsed identifier or the error
    of the parser. *)
Definition user_filter (env : Env) (userIDStr : string) : option UUID + error :=
  if negb (String.eqb userIDStr "") then
    match uuid_Parse env userIDStr with
    | inr err => inr err
    | inl uid => inl (Some uid)
    end
  else inl None.

(* ================================================================== *)
(** ** The store's reading of the INSERT and of the UPDATE

    Which parameter each column receives: the columns of an INSERT are
    paired with the values in the same position, the assignments of an
    UPDATE name theirs, and so does the condition on [id]. *)

Module Dml.

(** Items separated by [", "]. *)
Fixpoint read_list {A : Type} (fuel : nat) (item : string -> option (A * string))
    (s : string) : option (list A * string) :=
  match fuel with
  | O => None
  | S fuel' =>
      match item s with
      | None => None
      | Some (a, rest) =>
          match Pg.expect ", " rest with
          | Some rest' =>
              match read_list fuel' item rest' with
              | Some (l, rest'') => Some (a :: l, rest'')
              | None => None
              end
          | None => Some ([a], rest)
          end
      end
  end.

Definition read_column (s : string) : option (string * string) :=
  match Pg.read_ident s with
  | (EmptyString, _) => None
  | (col, rest) => Some (col, rest)
  end.

(** [col=$i], or [col=CURRENT_TIMESTAMP], which takes no parameter. *)
Definition read_assignment (s : string) : option (string * option nat * string) :=
  match read_column s with
  | None => None
  | Some (col, rest) =>
      match Pg.expect "=" rest with
      | None => None
      | Some rest' =>
          match Pg.read_placeholder rest' with
          | Some (i, rest'') => Some (col, Some i, rest'')
          | None =>
              option_map (fun r => (col, None, r)) (Pg.expect "CURRENT_TIMESTAMP" rest')
          end
      end
  end.

(** The columns of an INSERT into [subscriptions], each with the number
    of its placeholder. *)
Definition read_insert (query : string) : option (list (string * nat)) :=
  match Pg.expect "INSERT INTO subscriptions (" query with
  | None => None
  | Some rest =>
      match read_list (String.length rest) read_column rest with
      | None => None
      | Some (cols, rest1) =>
          match Pg.expect ") VALUES (" rest1 with
          | None => None
          | Some rest2 =>
              match read_list (String.length rest2) Pg.read_placeholder rest2 with
              | None => None
              | Some (values, rest3) =>
                  match Pg.expect ") RETURNING " rest3 with
                  | None => None
                  | Some _ =>
                      if Nat.eqb (length cols) (length values)
                      then Some (combine cols values) else None
                  end
              end
          end
      end
  end.

(** The assignments of an UPDATE of [subscriptions] that take a
    parameter, and the column and placeholder of its condition. *)
Definition read_update (query : string)
  : option (list (string * nat) * (string * nat)) :=
  match Pg.expect "UPDATE subscriptions SET " query with
  | None => None
  | Some rest =>
      match read_list (String.length rest) read_assignment rest with
      | None => None
      | Some (sets, rest1) =>
          match Pg.expect " WHERE " rest1 with
          | None => None
          | Some rest2 =>
              match read_column rest2 with
              | None => None
              | Some (col, rest3) =>
                  match Pg.expect "=" rest3 with
                  | None => None
                  | Some rest4 =>
                      match Pg.read_placeholder rest4 with
                      | None => None
                      | Some (i, rest5) =>
                          match Pg.expect " RETURNING " rest5 with
                          | None => None
                          | Some _ =>
                              Some (flat_map
                                      (fun '(c, p) =>
                                         match p with
                                         | Some j => [(c, j)]
                                         | None => []
                                         end) sets,
                                    (col, i))
                          end
                      end
                  end
              end
          end
      end
  end.

(** The parameter that [$i] stands for. *)
Definition param_arg (args : list arg) (i : nat) : option arg :=
  match i with
  | O => None
  | S j => nth_error args j
  end.

(** Each column with the parameter of its placeholder. *)
Fixpoint bound (cols : list (string * nat)) (args : list arg)
  : option (list (string * arg)) :=
  match cols with
  | [] => Some []
  | (col, i) :: cols' =>
      match param_arg args i, bound cols' args with
      | Some a, Some l => Some ((col, a) :: l)
      | _, _ => None
      end
  end.

End Dml.

(* ================================================================== *)
(** ** Periods as months and years *)





(** Whether a handler calls [GetSubscriptionByID]. *)
Definition calls_GetSubscriptionByID (X : Type) (e : handlerE X) : bool :=
  match e with
  | inr1 (SvcGetSubscriptionByID _) => true
  | _ => false
  end.

(** The statements of [Create] and [Update]. *)
Definition insert_subscription : string :=
  "INSERT INTO subscriptions (service_name, price, user_id, start_date, end_date) VALUES ($1, $2, $3, $4, $5) RETURNING id, service_name, price, user_id, start_date, end_date, created_at, updated_at".

Definition update_subscription : string :=
  "UPDATE subscriptions SET service_name=$1, price=$2, user_id=$3, start_date=$4, end_date=$5, updated_at=CURRENT_TIMESTAMP WHERE id=$6 RETURNING id, service_name, price, user_id, start_date, end_date, created_at, updated_at".

(** The parameters of [Create] and of [Update]. *)
Definition insert_args (req : CreateSubscriptionRequest) : list arg :=
  [AString (ServiceName req); AInt (Price req); AUuid (UserID req);
   AString (StartDate req); AStringPtr (EndDate req)].

Definition update_args (id : Z) (req : UpdateSubscriptionRequest) : list arg :=
  [AString (upd_ServiceName req); AInt (upd_Price req); AUuid (upd_UserID req);
   AString (upd_StartDate req); AStringPtr (upd_EndDate req); AInt id].


(** A row created with an empty end date. *)
Definition unended_row : Subscription :=
  {| sub_ID := 4; sub_ServiceName := "Netflix"; sub_Price := 100;
     sub_UserID := some_user; sub_StartDate := "01-2025";
     sub_EndDate := Some ""; sub_CreatedAt := 0; sub_UpdatedAt := 0 |}.

(** The calls that are counted in each layer: a handler's calls to the
    service, the service's calls to the repository, the repository's
    statements. *)
Definition is_service_call (X : Type) (e : handlerE X) : bool :=
  match e with
  | inr1 _ => true
  | inl1 _ => false
  end.

Definition is_repo_method (X : Type) (e : repoE X) : bool :=
  match e with
  | Svc e' => is_repo_call e'
  | _ => true
  end.

Definition sends_statement (X : Type) (e : poolE X) : bool :=
  match statement_of e with
  | Some _ => true
  | None => false
  end.

Definition on_pool (f : forall X, poolE X -> bool) (X : Type) (e : stackE X) : bool :=
  match e with
  | inl1 _ => false
  | inr1 d => f X d
  end.

(** A pool over a table, for the aggregate statement: it answers as the
    store reads the statement on the rows of the table. *)
Definition table_pool (table : list Subscription) (X : Type) (e : dbE X) (s : unit)
  : X * unit :=
  (match e in dbE T return T with
   | DbLog _ _ _ => tt
   | QueryRowSubscription _ _ => inr "no rows in result set"
   | QueryRowCost query args => Pg.aggregate query args table
   end, s).

(** The rows of a table on which every filter that is present holds. *)
Definition matching (s e : string) (u : option UUID) (n : option string)
    (table : list Subscription) : list Subscription :=
  List.filter (fun r => forallb (holds r) (present s e u n)) table.

(* ================================================================== *)
(** * Go values *)

Lemma uuid_eqb_spec (a b : UUID) : uuid_eqb a b = true <-> a = b.
Proof.
  revert b; induction a as [|x a IH]; intros [|y b]; simpl; split;
    try congruence; try reflexivity.
  - rewrite andb_true_iff, Ascii.eqb_eq, IH. intros [-> ->]; reflexivity.
  - intros H; inversion H; subst. rewrite Ascii.eqb_refl. simpl. apply IH; reflexivity.
Qed.

(* ================================================================== *)
(** * The period validator *)

Lemma is_digit_decimal (c : ascii) : is_digit c = true <-> decimal_digit c.
Proof.
  unfold decimal_digit.
  destruct c as [[] [] [] [] [] [] [] []]; vm_compute; split; intros H;
    try discriminate H; try reflexivity;
    repeat (destruct H as [H | H]; [try discriminate H | ]);
    try contradiction; tauto.
Qed.

Lemma compile_period_pattern :
  Regexp.compile "^\d{2}-\d{4}$" =
  Some (Regexp.mk true true
          [(Regexp.Digit, 2%nat); (Regexp.Lit "-", 1%nat); (Regexp.Digit, 4%nat)]).
Proof. reflexivity. Qed.

Lemma MatchString_period (s : string) :
  Regexp.MatchString "^\d{2}-\d{4}$" s = (period_shape s, None).
Proof.
  unfold Regexp.MatchString. rewrite compile_period_pattern.
  unfold Regexp.match_compiled, Regexp.match_here.
  cbn [Regexp.anchored_begin Regexp.anchored_end Regexp.body].
  f_equal.
  destruct s as [|m1 [|m2 [|h [|y1 [|y2 [|y3 [|y4 [|z s]]]]]]]];
    cbn [Regexp.match_body Regexp.match_rep Regexp.atom_matches period_shape];
    try reflexivity;
    try (destruct (is_digit m1); [|reflexivity]);
    try (destruct (is_digit m2); [|reflexivity]);
    try (destruct (Ascii.eqb h "-"); [|reflexivity]);
    try (destruct (is_digit y1); [|reflexivity]);
    try (destruct (is_digit y2); [|reflexivity]);
    try (destruct (is_digit y3); [|reflexivity]);
    try (destruct (is_digit y4); [|reflexivity]);
    reflexivity.
Qed.

Lemma validateDateFormat_eq (s : string) :
  validateDateFormat s =
  if String.eqb s "" then Some "date cannot be empty"
  else if period_shape s then None
  else Some "date must be in MM-YYYY format".
Proof.
  unfold validateDateFormat. rewrite MatchString_period.
  destruct (String.eqb s ""); [reflexivity|].
  destruct (period_shape s); reflexivity.
Qed.

Lemma period_shape_MM_YYYY (s : string) : period_shape s = true <-> MM_YYYY s.
Proof.
  unfold MM_YYYY; split.
  - destruct s as [|m1 [|m2 [|h [|y1 [|y2 [|y3 [|y4 [|z s]]]]]]]];
      cbn [period_shape]; try discriminate.
    rewrite !andb_true_iff, Ascii.eqb_eq, !is_digit_decimal.
    intros [[[[[[H1 H2] ->] H3] H4] H5] H6].
    exists m1, m2, y1, y2, y3, y4. repeat split; assumption.
  - intros (m1 & m2 & y1 & y2 & y3 & y4 & H1 & H2 & H3 & H4 & H5 & H6 & ->).
    cbn [period_shape]. rewrite !andb_true_iff, Ascii.eqb_eq, !is_digit_decimal.
    repeat split; auto.
Qed.

Lemma validateDateFormat_None (s : string) :
  validateDateFormat s = None <-> MM_YYYY s.
Proof.
  rewrite validateDateFormat_eq, <- period_shape_MM_YYYY.
  destruct s as [|c s]; [cbn; split; discriminate|].
  cbn [String.eqb]. destruct (period_shape (String c s)); split; congruence.
Qed.

Lemma validateDateFormat_Some (s : string) :
  ~ MM_YYYY s ->
  validateDateFormat s =
  Some (if String.eqb s "" then "date cannot be empty"
        else "date must be in MM-YYYY format").
Proof.
  rewrite <- period_shape_MM_YYYY, validateDateFormat_eq.
  destruct (String.eqb s ""); [reflexivity|].
  destruct (period_shape s); [intros H; exfalso; apply H; reflexivity | reflexivity].
Qed.

(** C2.  The period validator accepts a string exactly when it is two
    digits, a hyphen and four digits.  Every string of that shape is
    accepted, whatever the two digits of the month are (["13-2025"] is);
    every other string is rejected with an invalid-period-format error:
    the empty string with the message that the date cannot be empty, the
    others (["2025-01"], ["1-2025"], ["01-25"], ...) with the message that
    the date must be in MM-YYYY format. *)
Theorem validateDateFormat_accepts_exactly_MM_YYYY :
  (forall s, validateDateFormat s = None <-> MM_YYYY s) /\
  (forall s, ~ MM_YYYY s ->
     exists e, validateDateFormat s = Some e /\ InvalidPeriodFormat e /\
               (e = "date cannot be empty" <-> s = "")) /\
  validateDateFormat "13-2025" = None /\
  validateDateFormat "" = Some "date cannot be empty" /\
  validateDateFormat "2025-01" = Some "date must be in MM-YYYY format" /\
  validateDateFormat "1-2025" = Some "date must be in MM-YYYY format" /\
  validateDateFormat "01-25" = Some "date must be in MM-YYYY format".
Proof.
  split; [exact validateDateFormat_None|].
  split; [|repeat split; reflexivity].
  intros s H. rewrite (validateDateFormat_Some H).
  destruct (String.eqb_spec s "") as [->|Hne].
  - eexists; split; [reflexivity|]. split; [left; reflexivity|]. tauto.
  - eexists; split; [reflexivity|]. split; [right; reflexivity|].
    split; [discriminate | intros; contradiction].
Qed.

Lemma not_MM_YYYY_year_first : ~ MM_YYYY "2025-01".
Proof.
  rewrite <- period_shape_MM_YYYY. vm_compute. discriminate.
Qed.

Lemma validateDateFormat_accepts_exactly_MM_YYYY_witness :
  ~ MM_YYYY "2025-01" /\
  exists e, validateDateFormat "2025-01" = Some e /\ InvalidPeriodFormat e /\
            (e = "date cannot be empty" <-> "2025-01" = "").
Proof.
  split; [exact not_MM_YYYY_year_first|].
  exact (proj1 (proj2 validateDateFormat_accepts_exactly_MM_YYYY)
           "2025-01" not_MM_YYYY_year_first).
Defined.

(* ================================================================== *)
(** * Request validation: creation and update *)

Lemma rejected_never_calls {A : Type} (p : Prog svcE (option A * option error))
    fields err :
  rejected p fields err -> never is_repo_call p.
Proof.
  intros ->. apply never_Vis; [reflexivity|]. intros _. apply never_Ret.
Qed.

Lemma validateSubscriptionRequest_None (req : CreateSubscriptionRequest) :
  validateSubscriptionRequest req = None <->
  valid_fields (ServiceName req) (Price req) (UserID req) (StartDate req) (EndDate req).
Proof.
  unfold validateSubscriptionRequest, valid_fields.
  destruct (String.eqb_spec (ServiceName req) "") as [Hn|Hn].
  { split; [discriminate | intros [H _]; contradiction]. }
  destruct (Z.leb_spec (Price req) 0) as [Hp|Hp].
  { split; [discriminate | intros (_ & H & _); lia]. }
  destruct (uuid_eqb (UserID req) uuid_Nil) eqn:Hu.
  { apply uuid_eqb_spec in Hu.
    split; [discriminate | intros (_ & _ & H & _); contradiction]. }
  assert (Hu' : UserID req <> uuid_Nil).
  { intros H. apply uuid_eqb_spec in H. congruence. }
  destruct (validateDateFormat (StartDate req)) as [e|] eqn:Hs.
  { split; [discriminate | intros (_ & _ & _ & H & _); discriminate]. }
  destruct (EndDate req) as [d|].
  - destruct (String.eqb_spec d "") as [Hd|Hd]; cbn [negb].
    + split; [|reflexivity]. intros _. repeat split; auto.
      intros d' [= <-] H. contradiction.
    + destruct (validateDateFormat d) as [e|] eqn:He.
      * split; [discriminate|]. intros (_ & _ & _ & _ & H).
        specialize (H d eq_refl Hd). congruence.
      * split; [|reflexivity]. intros _. repeat split; auto.
        intros d' [= <-] _. exact He.
  - split; [|reflexivity]. intros _. repeat split; auto. discriminate.
Qed.

Lemma validateSubscriptionRequest_Some (req : CreateSubscriptionRequest) :
  ~ valid_fields (ServiceName req) (Price req) (UserID req) (StartDate req) (EndDate req) ->
  exists err, validateSubscriptionRequest req = Some err.
Proof.
  rewrite <- validateSubscriptionRequest_None.
  destruct (validateSubscriptionRequest req) as [e|]; [eauto | congruence].
Qed.

(** The negation of the rules, field by field. *)
Lemma not_valid_fields name price user startDate endDate :
  name = "" \/ (price <= 0)%Z \/ user = uuid_Nil \/
  validateDateFormat startDate <> None \/
  (exists d, endDate = Some d /\ d <> "" /\ validateDateFormat d <> None) ->
  ~ valid_fields name price user startDate endDate.
Proof.
  intros H (H1 & H2 & H3 & H4 & H5).
  destruct H as [H | [H | [H | [H | (d & Hd & Hne & H)]]]];
    [congruence | lia | congruence | congruence | ].
  apply H. apply H5; assumption.
Qed.

(** C8.  Creation rejects, without a call to the repository, every
    request whose service name is empty, whose price is not strictly
    positive, whose user identifier is the nil UUID, whose start period
    the period validator rejects, or whose end period is present, non-empty
    and rejected by the period validator: it logs the failure and returns
    the error with no subscription.  A request that breaks none of these
    rules is handed to the repository as it is, and the repository's answer
    is the answer of the service. *)
Theorem CreateSubscription_validates (req : CreateSubscriptionRequest) :
  (ServiceName req = "" \/ (Price req <= 0)%Z \/ UserID req = uuid_Nil \/
   validateDateFormat (StartDate req) <> None \/
   (exists d, EndDate req = Some d /\ d <> "" /\ validateDateFormat d <> None) ->
   (exists err,
      rejected (CreateSubscription req) (fun e => [("error", LStr e)]) err) /\
   never is_repo_call (CreateSubscription req)) /\
  (valid_fields (ServiceName req) (Price req) (UserID req) (StartDate req) (EndDate req) ->
   CreateSubscription req = Vis (RepoCreate req) Ret).
Proof.
  split.
  - intros H. apply not_valid_fields in H.
    destruct (validateSubscriptionRequest_Some req H) as [err Herr].
    assert (R : rejected (CreateSubscription req) (fun e => [("error", LStr e)]) err).
    { unfold rejected, CreateSubscription. rewrite Herr. reflexivity. }
    split; [exists err; exact R | exact (rejected_never_calls R)].
  - intros H. apply validateSubscriptionRequest_None in H.
    unfold CreateSubscription. rewrite H. reflexivity.
Qed.

Lemma netflix_request_valid :
  valid_fields (ServiceName netflix_request) (Price netflix_request)
    (UserID netflix_request) (StartDate netflix_request) (EndDate netflix_request).
Proof.
  apply validateSubscriptionRequest_None. reflexivity.
Qed.

Lemma CreateSubscription_validates_witness :
  ((exists err,
      rejected (CreateSubscription free_request) (fun e => [("error", LStr e)]) err) /\
   never is_repo_call (CreateSubscription free_request)) /\
  CreateSubscription netflix_request = Vis (RepoCreate netflix_request) Ret.
Proof.
  split.
  - apply (proj1 (CreateSubscription_validates free_request)).
    right; left. simpl. lia.
  - apply (proj2 (CreateSubscription_validates netflix_request)).
    exact netflix_request_valid.
Defined.

Lemma UpdateSubscription_eq (id : Z) (req : UpdateSubscriptionRequest) :
  UpdateSubscription id req =
  match validateSubscriptionRequest (as_create req) with
  | Some err =>
      Vis (Log Warn "Validation failed" [("error", LStr err); ("id", LInt id)])
          (fun _ => Ret (None, Some err))
  | None => Vis (RepoUpdate id req) Ret
  end.
Proof.
  unfold UpdateSubscription, as_create.
  destruct (validateSubscriptionRequest _); reflexivity.
Qed.

(** C10.  The update, which the router serves under PATCH and under no
    other method, applies the rules of creation to the five fields of its
    request.  A request that breaks one of them is rejected after a log
    entry and without a call to the repository; in particular a request
    in which the service name, the price, the user identifier or the start
    period is left out, and so holds Go's zero value (the empty string,
    zero, the nil UUID), is rejected.  A request that meets the rules goes
    to the repository whole: every field replaces the stored one. *)
Theorem UpdateSubscription_validates_whole_record
    (id : Z) (req : UpdateSubscriptionRequest) :
  served_by HUpdateSubscription = [(PATCH, "/v1/subscriptions/{id}/")] /\
  (upd_ServiceName req = "" \/ upd_Price req = 0%Z \/ upd_UserID req = uuid_Nil \/
   upd_StartDate req = "" ->
   ~ valid_fields (upd_ServiceName req) (upd_Price req) (upd_UserID req)
       (upd_StartDate req) (upd_EndDate req)) /\
  (~ valid_fields (upd_ServiceName req) (upd_Price req) (upd_UserID req)
       (upd_StartDate req) (upd_EndDate req) ->
   (exists err,
      rejected (UpdateSubscription id req)
        (fun e => [("error", LStr e); ("id", LInt id)]) err) /\
   never is_repo_call (UpdateSubscription id req)) /\
  (valid_fields (upd_ServiceName req) (upd_Price req) (upd_UserID req)
       (upd_StartDate req) (upd_EndDate req) ->
   UpdateSubscription id req = Vis (RepoUpdate id req) Ret).
Proof.
  split; [reflexivity|]. split; [|split].
  - intros H. apply not_valid_fields.
    destruct H as [H | [H | [H | H]]]; auto.
    + right; left. lia.
    + right; right; right; left. rewrite H. discriminate.
  - intros H.
    destruct (validateSubscriptionRequest_Some (as_create req) H) as [err Herr].
    assert (R : rejected (UpdateSubscription id req)
                  (fun e => [("error", LStr e); ("id", LInt id)]) err).
    { unfold rejected. rewrite UpdateSubscription_eq, Herr. reflexivity. }
    split; [exists err; exact R | exact (rejected_never_calls R)].
  - intros H. apply (validateSubscriptionRequest_None (as_create req)) in H.
    rewrite UpdateSubscription_eq, H. reflexivity.
Qed.

Lemma premium_update_valid :
  valid_fields (upd_ServiceName premium_update) (upd_Price premium_update)
    (upd_UserID premium_update) (upd_StartDate premium_update)
    (upd_EndDate premium_update).
Proof.
  apply (validateSubscriptionRequest_None (as_create premium_update)). reflexivity.
Qed.

Lemma UpdateSubscription_validates_whole_record_witness :
  ((exists err,
      rejected (UpdateSubscription 1 priceless_update)
        (fun e => [("error", LStr e); ("id", LInt 1)]) err) /\
   never is_repo_call (UpdateSubscription 1 priceless_update)) /\
  UpdateSubscription 1 premium_update = Vis (RepoUpdate 1 premium_update) Ret.
Proof.
  pose proof (UpdateSubscription_validates_whole_record 1 priceless_update)
    as (_ & Hzero & Hrej & _).
  pose proof (UpdateSubscription_validates_whole_record 1 premium_update)
    as (_ & _ & _ & Hok).
  split.
  - apply Hrej, Hzero. right; left. reflexivity.
  - apply Hok. exact premium_update_valid.
Defined.

(* ================================================================== *)
(** * The cost-aggregation operation *)

Lemma fails_with_never_calls p err : fails_with p err -> never is_repo_call p.
Proof. intros ->. apply never_Ret. Qed.

Lemma fails_with_no_read p err :
  fails_with p err -> never is_db_call (over_pool p).
Proof. intros ->. apply never_Ret. Qed.

Lemma never_run_count {E : Type -> Type} {S A : Type}
    (bad : forall X, E X -> bool) (h : forall X, E X -> S -> X * S)
    (p : Prog E A) :
  never bad p -> forall s, count_calls bad h p s = O.
Proof.
  induction 1 as [a | X e k Hbad _ IH]; intros s; cbn [count_calls].
  - reflexivity.
  - destruct (h X e s) as [x s']. rewrite Hbad, IH. reflexivity.
Qed.

(** The operation, by cases on what it checks before it reads. *)
Lemma GetCostByPeriod_cases (startDate endDate : string)
    (userID : option UUID) (serviceName : option string) :
  let p := GetCostByPeriod startDate endDate userID serviceName in
  (startDate = "" /\ endDate = "" /\
   fails_with p "at least one date parameter is required") \/
  (~ (startDate = "" /\ endDate = "") /\
   exists err, validateDateFormat startDate = Some err /\ fails_with p err) \/
  (validateDateFormat startDate = None /\ endDate <> "" /\
   exists err, validateDateFormat endDate = Some err /\ fails_with p err) \/
  (validateDateFormat startDate = None /\
   (endDate = "" \/ validateDateFormat endDate = None) /\
   reads_store p startDate endDate userID serviceName).
Proof.
  cbv zeta. unfold GetCostByPeriod, fails_with.
  destruct (String.eqb_spec startDate "") as [Hs|Hs];
    destruct (String.eqb_spec endDate "") as [He|He]; cbn [andb negb].
  - left. auto.
  - right; left. split; [tauto|]. subst startDate. cbn. eauto.
  - right. destruct (validateDateFormat startDate) as [e|] eqn:Hv.
    + left. split; [tauto|]. eauto.
    + right; right. split; [reflexivity|]. split; [left; exact He|].
      eexists. split; [reflexivity|]. split; reflexivity.
  - right. destruct (validateDateFormat startDate) as [e|] eqn:Hv.
    + left. split; [tauto|]. eauto.
    + right. destruct (validateDateFormat endDate) as [e|] eqn:Hv'.
      * left. split; [reflexivity|]. split; [exact He|]. eauto.
      * right. split; [reflexivity|]. split; [right; reflexivity|].
        eexists. split; [reflexivity|]. split; reflexivity.
Qed.

(** C3.  With both periods empty the operation fails with the
    missing-date-range error, whatever the user identifier and the service
    name are, and issues no read: no call to the repository, and so no
    statement to the pool, whatever implementation runs the program. *)
Theorem GetCostByPeriod_requires_a_date
    (userID : option UUID) (serviceName : option string) :
  let p := GetCostByPeriod "" "" userID serviceName in
  (exists err, fails_with p err /\ MissingDateRange err) /\
  never is_repo_call p /\
  never is_db_call (over_pool p) /\
  (forall (S : Type) (h : forall X, dbE X -> S -> X * S) (s : S),
      run h (over_pool p) s =
        ((None, Some "at least one date parameter is required"), s) /\
      count_calls is_db_call h (over_pool p) s = O).
Proof.
  cbv zeta.
  assert (F : fails_with (GetCostByPeriod "" "" userID serviceName)
                "at least one date parameter is required") by reflexivity.
  split; [exists "at least one date parameter is required"; split;
          [exact F | reflexivity]|].
  split; [exact (fails_with_never_calls F)|].
  split; [exact (fails_with_no_read F)|].
  intros S h s. split; [reflexivity|].
  apply never_run_count. exact (fails_with_no_read F).
Qed.


(** The claim C5 as stated fails: with start period ["13-2025"] and no end
    period the operation does not return an invalid-period-format error, it
    calls the repository. *)
Lemma GetCostByPeriod_month_13_not_rejected :
  ~ (exists err,
        fails_with (GetCostByPeriod "13-2025" "" None None) err /\
        InvalidPeriodFormat err).
Proof.
  intros (err & H & _). unfold fails_with in H. discriminate H.
Qed.

(** C5, amended.  With start period ["13-2025"] and no end period the
    operation passes validation, since the validator takes any two digits
    for the month, and issues the aggregate read with the arguments it was
    given; it fails only if that read fails, with the error of the read. *)
Theorem GetCostByPeriod_month_13_reads_store
    (userID : option UUID) (serviceName : option string) :
  validateDateFormat "13-2025" = None /\
  reads_store (GetCostByPeriod "13-2025" "" userID serviceName)
    "13-2025" "" userID serviceName.
Proof.
  split; [reflexivity|].
  eexists. split; [reflexivity|]. split; reflexivity.
Qed.

Lemma validateDateFormat_error (s : string) (err : error) :
  validateDateFormat s = Some err -> InvalidPeriodFormat err.
Proof.
  rewrite validateDateFormat_eq. unfold InvalidPeriodFormat.
  destruct (String.eqb s ""); [intros [= <-]; left; reflexivity|].
  destruct (period_shape s); [discriminate | intros [= <-]; right; reflexivity].
Qed.

Lemma run_bind {E : Type -> Type} {S A B : Type}
    (h : forall X, E X -> S -> X * S) (p : Prog E A) (f : A -> Prog E B) (s : S) :
  run h (bind p f) s = let '(a, s') := run h p s in run h (f a) s'.
Proof.
  revert s; induction p as [a | X e k IH]; intros s; cbn [bind run].
  - reflexivity.
  - destruct (h X e s) as [x s']. apply IH.
Qed.

(** The repository's read against a pool: the statement and parameters of
    [costQuery] go to the pool; its totals come back as they are, its
    error comes back wrapped, with zero totals beside it. *)
Lemma run_repo_GetCostByPeriod {S : Type} (h : forall X, dbE X -> S -> X * S)
    startDate endDate userID serviceName (s : S) :
  let '(query, args) := costQuery startDate endDate userID serviceName in
  fst (run h (repo_GetCostByPeriod startDate endDate userID serviceName) s) =
  match fst (h _ (QueryRowCost query args) s) with
  | inl (totalCost, count) => (totalCost, count, None)
  | inr err => (0%Z, 0%Z, Some (wrap "failed to calculate cost" err))
  end.
Proof.
  unfold repo_GetCostByPeriod.
  destruct (costQuery startDate endDate userID serviceName) as [query args].
  cbn [bind call run]. unfold error.
  match goal with
  | |- context [h ?X ?e s] =>
      destruct (h X e s) as [[[totalCost count] | err] s1]
  end; cbn [fst bind run].
  - destruct (h _ (DbLog Info "Cost calculated"
                     [("total", LInt totalCost); ("count", LInt count)]) s1); reflexivity.
  - destruct (h _ (DbLog Error "Failed to calculate cost" [("error", LStr err)]) s1);
      reflexivity.
Qed.

(** The operation over the pool, once validation has passed. *)
Lemma run_reads_store {S : Type} (h : forall X, dbE X -> S -> X * S)
    p startDate endDate userID serviceName (s : S) :
  reads_store p startDate endDate userID serviceName ->
  let '(query, args) := costQuery startDate endDate userID serviceName in
  fst (run h (over_pool p) s) =
  match fst (h _ (QueryRowCost query args) s) with
  | inl (totalCost, count) =>
      (Some {| TotalCost := totalCost; Count := count |}, None)
  | inr err => (None, Some (wrap "failed to calculate cost" err))
  end.
Proof.
  intros (k & -> & Hok & Herr).
  pose proof (run_repo_GetCostByPeriod h startDate endDate userID serviceName s) as R.
  destruct (costQuery startDate endDate userID serviceName) as [query args].
  unfold over_pool. cbn [interp repository]. rewrite run_bind.
  destruct (run h (repo_GetCostByPeriod startDate endDate userID serviceName) s)
    as [r s1].
  cbn [fst] in R. subst r.
  destruct (fst (h _ (QueryRowCost query args) s)) as [[totalCost count] | err].
  - rewrite Hok. reflexivity.
  - rewrite Herr. reflexivity.
Qed.

(** C7.  When one of the checks of the operation fails (both periods
    empty, a start period the validator rejects, a non-empty end period the
    validator rejects), the operation returns the error at once: its
    program has no call to the repository, and over the pool no statement
    is issued.  When they all pass it makes the one aggregate read, and if
    the read fails the operation returns the error, wrapped with the name
    of the operation, and no result value: the zero totals that the
    repository returns beside the error never become a cost result. *)
Theorem GetCostByPeriod_fails_fast_and_propagates
    (startDate endDate : string) (userID : option UUID) (serviceName : option string) :
  let p := GetCostByPeriod startDate endDate userID serviceName in
  ((startDate = "" /\ endDate = "") \/
   validateDateFormat startDate <> None \/
   (endDate <> "" /\ validateDateFormat endDate <> None) ->
   exists err,
     fails_with p err /\ (MissingDateRange err \/ InvalidPeriodFormat err) /\
     never is_repo_call p /\ never is_db_call (over_pool p)) /\
  (validateDateFormat startDate = None ->
   endDate = "" \/ validateDateFormat endDate = None ->
   reads_store p startDate endDate userID serviceName /\
   forall (S : Type) (h : forall X, dbE X -> S -> X * S) (s : S) (err : error),
     fst (h _ (QueryRowCost (fst (costQuery startDate endDate userID serviceName))
                            (snd (costQuery startDate endDate userID serviceName))) s)
       = inr err ->
     fst (run h (over_pool p) s) = (None, Some (wrap "failed to calculate cost" err))).
Proof.
  cbv zeta.
  pose proof (GetCostByPeriod_cases startDate endDate userID serviceName) as C.
  cbv zeta in C. split.
  - intros H.
    assert (exists err,
               fails_with (GetCostByPeriod startDate endDate userID serviceName) err /\
               (MissingDateRange err \/ InvalidPeriodFormat err)) as (err & F & K).
    { destruct C as [(_ & _ & F) | [(_ & err & Hv & F) | [(_ & _ & err & Hv & F) | (Hs & He & _)]]].
      - eexists; split; [exact F | left; reflexivity].
      - exists err; split; [exact F | right; exact (validateDateFormat_error _ Hv)].
      - exists err; split; [exact F | right; exact (validateDateFormat_error _ Hv)].
      - exfalso. destruct H as [[H1 H2] | [H | [H1 H2]]].
        + subst startDate. discriminate Hs.
        + contradiction.
        + destruct He; contradiction. }
    exists err. repeat split; try assumption.
    + exact (fails_with_never_calls F).
    + exact (fails_with_no_read F).
  - intros Hs He.
    assert (R : reads_store (GetCostByPeriod startDate endDate userID serviceName)
                  startDate endDate userID serviceName).
    { destruct C as [(-> & _ & _) | [(_ & err & Hv & _) | [(_ & Hne & err & Hv & _) | (_ & _ & R)]]].
      - discriminate Hs.
      - congruence.
      - destruct He; congruence.
      - exact R. }
    split; [exact R|].
    intros S h s err Hq.
    pose proof (run_reads_store h s R) as Q.
    destruct (costQuery startDate endDate userID serviceName) as [query args].
    cbn [fst snd] in Hq. rewrite Q, Hq. reflexivity.
Qed.

Lemma GetCostByPeriod_fails_fast_and_propagates_witness :
  (exists err,
     fails_with (GetCostByPeriod "2025-01" "" None None) err /\
     (MissingDateRange err \/ InvalidPeriodFormat err) /\
     never is_repo_call (GetCostByPeriod "2025-01" "" None None) /\
     never is_db_call (over_pool (GetCostByPeriod "2025-01" "" None None))) /\
  reads_store (GetCostByPeriod "01-2025" "12-2025" None None)
    "01-2025" "12-2025" None None.
Proof.
  split.
  - apply (proj1 (GetCostByPeriod_fails_fast_and_propagates "2025-01" "" None None)).
    right; left. vm_compute. discriminate.
  - apply (proj2 (GetCostByPeriod_fails_fast_and_propagates "01-2025" "12-2025" None None)).
    + reflexivity.
    + right. reflexivity.
Defined.

(* ================================================================== *)
(** * The query builder *)

(** The sixteen combinations of filters; in each the text of the
    statement is a constant. *)
Ltac by_filters s e u n :=
  destruct s as [ | ? ? ]; destruct e as [ | ? ? ]; destruct u as [ ? | ];
  destruct n as [ ? | ].

Lemma costQuery_present s e u n :
  costQuery s e u n =
  (base_clause ++ predicates_from 1 (present s e u n),
   map parameter (present s e u n)).
Proof. by_filters s e u n; reflexivity. Qed.

Lemma present_length s e u n : (length (present s e u n) <= 4)%nat.
Proof. by_filters s e u n; cbn; lia. Qed.

Lemma costQuery_placeholders s e u n :
  placeholders (fst (costQuery s e u n)) = seq 1 (length (snd (costQuery s e u n))).
Proof. by_filters s e u n; reflexivity. Qed.

Lemma placeholders_predicate f i :
  (1 <= i <= 4)%nat -> placeholders (predicate f i) = [i].
Proof.
  intros H.
  assert (C : (i = 1 \/ i = 2 \/ i = 3 \/ i = 4)%nat) by lia.
  destruct C as [-> | [-> | [-> | ->]]]; destruct f; reflexivity.
Qed.

Lemma column_start_date r :
  Pg.column "start_date" r = Some (Pg.VText (sub_StartDate r)).
Proof. reflexivity. Qed.

Lemma column_end_date r :
  Pg.column "end_date" r =
  Some (match sub_EndDate r with Some s => Pg.VText s | None => Pg.VNull end).
Proof. reflexivity. Qed.

Lemma column_user_id r : Pg.column "user_id" r = Some (Pg.VUuid (sub_UserID r)).
Proof. reflexivity. Qed.

Lemma column_service_name r :
  Pg.column "service_name" r = Some (Pg.VText (sub_ServiceName r)).
Proof. reflexivity. Qed.

(** The store's reading of the statement: with the parameters the builder
    appended, the statement selects the rows on which every filter that is
    present holds. *)
Lemma costQuery_selects s e u n r :
  Pg.selects (fst (costQuery s e u n)) (snd (costQuery s e u n)) r =
  Some (forallb (holds r) (present s e u n)).
Proof.
  rewrite costQuery_present. cbn [fst snd].
  by_filters s e u n; cbn [present String.eqb app map parameter forallb holds];
    unfold Pg.selects;
    match goal with
    | |- context [Pg.read_where ?q] =>
        let c := eval vm_compute in (Pg.read_where q) in
        change (Pg.read_where q) with c
    end;
    cbn [Pg.eval Pg.param nth_error option_map Pg.of_arg];
    rewrite ?column_start_date, ?column_end_date, ?column_user_id,
      ?column_service_name;
    cbn [Pg.lift2 Pg.join Pg.ge_val Pg.eq_val];
    try destruct (sub_EndDate r) as [d|];
    cbn [Pg.lift2 Pg.join Pg.ge_val Pg.eq_val];
    repeat match goal with
           | |- context [Pg.of_bool ?b] =>
               lazymatch b with
               | true => fail
               | false => fail
               | _ => destruct b; cbn [Pg.of_bool]
               end
           end;
    reflexivity.
Qed.

(** C1.  The builder appends the predicates and the parameters of the
    filters that are present in the order start period, end period, user
    identifier, service name: the statement is the base clause followed by
    their predicates numbered from one, the parameter list is the list of
    their values.  The placeholders of the text are $1, $2, ... up to the
    number of parameters; the predicate of the filter at position j
    carries the placeholder of that position and the parameter at that
    position is the filter's own value, so that the store evaluates each
    predicate on the value it was built for.  With a start period, a user
    identifier and a service name the parameters are [start; user;
    service] when the end period is empty and [start; end; user; service]
    when it is not. *)
Theorem costQuery_parameters_in_lock_step
    (s e : string) (u : option UUID) (n : option string) :
  let fs := present s e u n in
  let query := fst (costQuery s e u n) in
  let args := snd (costQuery s e u n) in
  query = base_clause ++ predicates_from 1 fs /\
  args = map parameter fs /\
  placeholders query = seq 1 (length args) /\
  (forall j f, nth_error fs j = Some f ->
     placeholders (predicate f (S j)) = [S j] /\
     nth_error args j = Some (parameter f)) /\
  (forall r, Pg.selects query args r = Some (forallb (holds r) fs)) /\
  (s <> "" ->
   forall user name,
     snd (costQuery s "" (Some user) (Some name)) =
     [AString s; AUuidPtr (Some user); AString name]) /\
  (s <> "" -> e <> "" ->
   forall user name,
     snd (costQuery s e (Some user) (Some name)) =
     [AString s; AString e; AUuidPtr (Some user); AString name]).
Proof.
  cbv zeta. rewrite costQuery_present at 1 2. cbn [fst snd].
  split; [reflexivity|]. split; [reflexivity|].
  split; [apply costQuery_placeholders|].
  split; [|split; [intros r; apply costQuery_selects|]].
  - intros j f Hj. split.
    + apply placeholders_predicate.
      assert (j < length (present s e u n))%nat
        by (apply nth_error_Some; congruence).
      pose proof (present_length s e u n). lia.
    + rewrite costQuery_present. cbn [snd].
      rewrite nth_error_map, Hj. reflexivity.
  - split.
    + intros Hs user name. destruct s as [|c s']; [contradiction|]. reflexivity.
    + intros Hs He user name.
      destruct s as [|c s']; [contradiction|].
      destruct e as [|c' e']; [contradiction|]. reflexivity.
Qed.

Lemma costQuery_parameters_in_lock_step_witness :
  snd (costQuery "01-2025" "" (Some some_user) (Some "Netflix")) =
    [AString "01-2025"; AUuidPtr (Some some_user); AString "Netflix"] /\
  snd (costQuery "01-2025" "12-2025" (Some some_user) (Some "Netflix")) =
    [AString "01-2025"; AString "12-2025"; AUuidPtr (Some some_user);
     AString "Netflix"] /\
  nth_error (snd (costQuery "01-2025" "12-2025" (Some some_user) (Some "Netflix"))) 2 =
    Some (AUuidPtr (Some some_user)).
Proof.
  pose proof (costQuery_parameters_in_lock_step
                "01-2025" "12-2025" (Some some_user) (Some "Netflix"))
    as (_ & _ & _ & Hnth & _ & H3 & H4).
  split; [|split].
  - apply H3. discriminate.
  - apply H4; discriminate.
  - apply (Hnth 2%nat (ByUser some_user)). reflexivity.
Defined.

(** C9.  Whatever the filters, the text of the statement has as many
    placeholders as the parameter list has entries, and they are $1, $2,
    ... in this order: none is repeated and none points outside the list.
    The text begins with the base clause [WHERE 1=1], and the store reads
    it as the conjunction of [1=1] and one term for each parameter. *)
Theorem costQuery_placeholders_consecutive
    (s e : string) (u : option UUID) (n : option string) :
  let query := fst (costQuery s e u n) in
  let args := snd (costQuery s e u n) in
  length (placeholders query) = length args /\
  placeholders query = seq 1 (length args) /\
  NoDup (placeholders query) /\
  Forall (fun i => 1 <= i <= length args)%nat (placeholders query) /\
  String.prefix base_clause query = true /\
  exists terms,
    option_map Pg.conjuncts (Pg.read_where query) = Some (Pg.CTrue :: terms) /\
    length terms = length args.
Proof.
  cbv zeta. rewrite costQuery_placeholders.
  split; [apply length_seq|]. split; [reflexivity|].
  split; [apply seq_NoDup|].
  split; [apply Forall_forall; intros i Hi; apply in_seq in Hi; lia|].
  split; [by_filters s e u n; reflexivity|].
  by_filters s e u n; eexists; (split; [vm_compute; reflexivity | reflexivity]).
Qed.

(** C6.  The end-period predicate is in the statement exactly when the
    end period is not empty.  When it is, the predicate is
    [(end_date IS NULL OR end_date >= $i)], appended with [AND] after the
    base clause and the start predicate and before the user and service
    predicates, and the parameter at position i is the end period: the
    statement selects the rows that the statement without an end period
    selects and whose stored end period is absent or, as a string, not
    below the given one.  When it is empty, the text does not mention
    [end_date] and the parameters are those of the other filters. *)
Theorem costQuery_end_period_predicate
    (s e : string) (u : option UUID) (n : option string) :
  let query := fst (costQuery s e u n) in
  let args := snd (costQuery s e u n) in
  let others := snd (costQuery s "" u n) in
  let i := if String.eqb s "" then 1%nat else 2%nat in
  contains "end_date" query = negb (String.eqb e "") /\
  (e = "" -> args = others) /\
  (e <> "" ->
   query = fst (costQuery s "" None None) ++
           " AND (end_date IS NULL OR end_date >= $" ++ sprintf_d (Z.of_nat i) ++ ")" ++
           predicates_from (S i) (present "" "" u n) /\
   nth_error args (i - 1) = Some (AString e) /\
   length args = S (length others)) /\
  (forall r,
     Pg.selects query args r =
     option_map (fun b => b && end_period_holds e r)
                (Pg.selects (fst (costQuery s "" u n)) others r)).
Proof.
  cbv zeta.
  split; [by_filters s e u n; reflexivity|].
  split; [intros ->; reflexivity|].
  split.
  - intros He. destruct e as [|c e']; [contradiction|].
    destruct s as [|? ?]; destruct u as [?|]; destruct n as [?|];
      repeat split; reflexivity.
  - intros r. rewrite !costQuery_selects. cbn [option_map]. f_equal.
    unfold end_period_holds.
    by_filters s e u n; cbn [present String.eqb app forallb holds];
      try destruct (sub_EndDate r) as [d|];
      repeat match goal with
             | |- context [String.leb ?a ?b] => destruct (String.leb a b)
             | |- context [uuid_eqb ?a ?b] => destruct (uuid_eqb a b)
             | |- context [String.eqb ?a ?b] => destruct (String.eqb a b)
             end;
      reflexivity.
Qed.

Lemma costQuery_end_period_predicate_witness :
  fst (costQuery "01-2025" "12-2025" (Some some_user) None) =
    fst (costQuery "01-2025" "" None None) ++
    " AND (end_date IS NULL OR end_date >= $" ++ sprintf_d 2 ++ ")" ++
    predicates_from 3 (present "" "" (Some some_user) None) /\
  nth_error (snd (costQuery "01-2025" "12-2025" (Some some_user) None)) 1 =
    Some (AString "12-2025") /\
  length (snd (costQuery "01-2025" "12-2025" (Some some_user) None)) =
    S (length (snd (costQuery "01-2025" "" (Some some_user) None))).
Proof.
  apply (proj1 (proj2 (proj2
           (costQuery_end_period_predicate
              "01-2025" "12-2025" (Some some_user) None)))).
  discriminate.
Defined.

(* ================================================================== *)
(** * The aggregate read on a table *)

(** The store never refuses the builder's statement, and answers with the
    sum of the prices and the number of the rows on which every present
    filter holds; with no such row, with two zeros. *)
Lemma costQuery_aggregate s e u n (table : list Subscription) :
  Pg.aggregate (fst (costQuery s e u n)) (snd (costQuery s e u n)) table =
  let matching := List.filter (fun r => forallb (holds r) (present s e u n)) table in
  inl (fold_right (fun r total => (sub_Price r + total)%Z) 0%Z matching,
       Z.of_nat (length matching)).
Proof.
  cbv zeta. induction table as [|r table IH]; cbn [Pg.aggregate List.filter].
  - reflexivity.
  - rewrite costQuery_selects, IH.
    destruct (forallb (holds r) (present s e u n)); cbn [fold_right length].
    + f_equal. f_equal. lia.
    + reflexivity.
Qed.

Example cost_of_user_over_2025 :
  let '(query, args) := costQuery "01-2025" "12-2025" (Some some_user) None in
  Pg.aggregate query args two_subscriptions = inl (150%Z, 2%Z).
Proof. reflexivity. Qed.

Example cost_of_netflix :
  let '(query, args) := costQuery "01-2025" "" None (Some "Netflix") in
  Pg.aggregate query args two_subscriptions = inl (100%Z, 1%Z).
Proof. reflexivity. Qed.


(* ================================================================== *)
(** * Programs: what binding and linking preserve *)

Lemma always_bind {E : Type -> Type} {A B : Type} (P : forall X, E X -> Prop)
    (p : Prog E A) (f : A -> Prog E B) :
  always P p -> (forall a, always P (f a)) -> always P (bind p f).
Proof.
  intros Hp Hf. induction Hp as [a | X e k He _ IH]; cbn [bind].
  - apply Hf.
  - apply always_Vis; assumption.
Qed.

Lemma always_interp {E F : Type -> Type} {A : Type} (P : forall X, F X -> Prop)
    (h : forall X, E X -> Prog F X) (p : Prog E A) :
  (forall X (e : E X), always P (h X e)) -> always P (interp h p).
Proof.
  intros Hh. induction p as [a | X e k IH]; cbn [interp].
  - apply always_Ret.
  - apply always_bind; [apply Hh | exact IH].
Qed.

Lemma always_in_pool {A : Type} (P : forall X, poolE X -> Prop) (p : Prog dbE A) :
  always (fun X e => P X (Pool e)) p -> always P (in_pool p).
Proof.
  induction 1 as [a | X e k He _ IH]; cbn.
  - apply always_Ret.
  - apply always_Vis; assumption.
Qed.

Lemma returns_bind {E : Type -> Type} {A B : Type} (Q' : A -> Prop) (Q : B -> Prop)
    (p : Prog E A) (f : A -> Prog E B) :
  returns Q' p -> (forall a, Q' a -> returns Q (f a)) -> returns Q (bind p f).
Proof.
  intros Hp Hf. induction Hp as [a Ha | X e k _ IH]; cbn [bind].
  - apply Hf, Ha.
  - apply returns_Vis. exact IH.
Qed.

Lemma returns_weaken {E : Type -> Type} {A : Type} (Q Q' : A -> Prop) (p : Prog E A) :
  (forall a, Q a -> Q' a) -> returns Q p -> returns Q' p.
Proof.
  intros HQ. induction 1 as [a Ha | X e k _ IH].
  - apply returns_Ret, HQ, Ha.
  - apply returns_Vis, IH.
Qed.

(** Linking: when the implementation of every call returns within [post],
    the linked program returns what the program returns on the paths
    answered within [post]. *)
Lemma returns_interp {E F : Type -> Type} {A : Type}
    (post : forall X, E X -> X -> Prop) (Q : A -> Prop)
    (h : forall X, E X -> Prog F X) (p : Prog E A) :
  (forall X (e : E X), returns (post X e) (h X e)) ->
  returns_given post Q p -> returns Q (interp h p).
Proof.
  intros Hh. induction 1 as [a Ha | X e k _ IH]; cbn [interp].
  - apply returns_Ret, Ha.
  - apply returns_bind with (Q' := post X e); [apply Hh | exact IH].
Qed.

Lemma returns_relabel {E F : Type -> Type} {A : Type} (Q : A -> Prop)
    (f : forall X, E X -> F X) (p : Prog E A) :
  returns Q p -> returns Q (interp (fun X e => call (f X e)) p).
Proof.
  induction 1 as [a Ha | X e k _ IH]; cbn.
  - apply returns_Ret, Ha.
  - apply returns_Vis, IH.
Qed.

Lemma returns_run {E : Type -> Type} {S A : Type} (Q : A -> Prop)
    (h : forall X, E X -> S -> X * S) (p : Prog E A) :
  returns Q p -> forall s, Q (fst (run h p s)).
Proof.
  induction 1 as [a Ha | X e k _ IH]; intros s; cbn [run].
  - exact Ha.
  - destruct (h X e s) as [x s']. apply IH.
Qed.

(* ================================================================== *)
(** * The repository *)

Lemma repository_well_numbered (X : Type) (e : svcE X) :
  always (fun Y d => well_numbered (Pool d)) (repository e).
Proof.
  destruct e as [lv message fields | req | id req | s e u n]; cbn.
  - apply always_Vis; [exact I | intros; apply always_Ret].
  - apply always_Vis; [reflexivity|].
    intros [sub | err]; cbn;
      (apply always_Vis; [exact I | intros; apply always_Ret]).
  - apply always_Vis; [reflexivity|].
    intros [sub | err]; cbn;
      (apply always_Vis; [exact I | intros; apply always_Ret]).
  - unfold repo_GetCostByPeriod.
    pose proof (costQuery_placeholders s e u n) as W.
    destruct (costQuery s e u n) as [query args]. cbn [fst snd] in W. cbn.
    apply always_Vis; [exact W|].
    intros [[totalCost count] | err]; cbn;
      (apply always_Vis; [exact I | intros; apply always_Ret]).
Qed.

Lemma repository_all_well_numbered (X : Type) (e : repoE X) :
  always well_numbered (repository_all e).
Proof.
  destruct e as [X e | | id | id]; cbn [repository_all].
  - apply always_in_pool, repository_well_numbered.
  - unfold repo_GetAll. cbn. apply always_Vis; [reflexivity|].
    intros [rows | err]; cbn.
    + destruct (scan_rows (scans rows) []) as [subscriptions | err]; cbn;
        (apply always_Vis; [exact I|]; intros;
         apply always_Vis; [exact I|]; intros; apply always_Ret).
    + apply always_Vis; [exact I | intros; apply always_Ret].
  - apply always_in_pool. cbn. apply always_Vis; [reflexivity|].
    intros [sub | err]; cbn.
    + apply always_Ret.
    + apply always_Vis; [exact I | intros; apply always_Ret].
  - unfold repo_Delete. cbn. apply always_Vis; [reflexivity|].
    intros [rowsAffected | err]; cbn.
    + destruct (rowsAffected =? 0)%Z; cbn;
        (apply always_Vis; [exact I | intros; apply always_Ret]).
    + apply always_Vis; [exact I | intros; apply always_Ret].
Qed.

(** X1.  Whatever a program does with the repository, every statement
    that reaches the pool has the placeholders $1, ..., $n, in this order,
    for its n parameters: the six statements of the repository, the
    aggregate statement in each of its sixteen forms included. *)
Theorem repository_statements_well_numbered (A : Type) (p : Prog repoE A) :
  always well_numbered (interp repository_all p).
Proof.
  apply always_interp. exact repository_all_well_numbered.
Qed.

Lemma repository_post (X : Type) (e : svcE X) :
  returns (repo_post (Svc e)) (repository e).
Proof.
  destruct e as [lv message fields | req | id req | s e u n]; cbn.
  - apply returns_Vis. intros. apply returns_Ret. exact I.
  - apply returns_Vis. intros [sub | err]; cbn;
      apply returns_Vis; intros; apply returns_Ret; exact I.
  - apply returns_Vis. intros [sub | err]; cbn;
      apply returns_Vis; intros; apply returns_Ret; exact I.
  - unfold repo_GetCostByPeriod. destruct (costQuery s e u n) as [query args]. cbn.
    apply returns_Vis. intros [[totalCost count] | err]; cbn;
      apply returns_Vis; intros; apply returns_Ret; exact I.
Qed.

Lemma repository_all_post (X : Type) (e : repoE X) :
  returns (repo_post e) (repository_all e).
Proof.
  destruct e as [X e | | id | id]; cbn [repository_all].
  - exact (returns_relabel (fun Y d => Pool d) (repository_post e)).
  - unfold repo_GetAll. cbn. apply returns_Vis. intros [rows | err]; cbn.
    + destruct (scan_rows (scans rows) []) as [subscriptions | err]; cbn;
        apply returns_Vis; intros; apply returns_Vis; intros;
        apply returns_Ret; exact I.
    + apply returns_Vis; intros; apply returns_Ret; exact I.
  - cbn. apply returns_Vis. intros [sub | err]; cbn.
    + apply returns_Ret; exact I.
    + apply returns_Vis; intros; apply returns_Ret; exact I.
  - unfold repo_Delete. cbn. apply returns_Vis. intros [rowsAffected | err]; cbn.
    + destruct (rowsAffected =? 0)%Z; cbn;
        apply returns_Vis; intros; apply returns_Ret; exact I.
    + apply returns_Vis; intros; apply returns_Ret; exact I.
Qed.

(** Each method of the service, given a repository that keeps its promise. *)
Lemma service_given_repo (X : Type) (e : serviceE X) :
  returns_given repo_post (service_post e) (service e).
Proof.
  destruct e as [ | id | req | id req | id | s e u n]; cbn [service service_post].
  - apply returns_given_Vis. intros x Hx. apply returns_given_Ret. exact Hx.
  - apply returns_given_Vis. intros x Hx. apply returns_given_Ret. exact Hx.
  - unfold CreateSubscription.
    destruct (validateSubscriptionRequest req) as [err|]; cbn.
    + apply returns_given_Vis. intros _ _. apply returns_given_Ret. exact I.
    + apply returns_given_Vis. intros x Hx. apply returns_given_Ret. exact Hx.
  - rewrite UpdateSubscription_eq.
    destruct (validateSubscriptionRequest (as_create req)) as [err|]; cbn.
    + apply returns_given_Vis. intros _ _. apply returns_given_Ret. exact I.
    + apply returns_given_Vis. intros x Hx. apply returns_given_Ret. exact Hx.
  - apply returns_given_Vis. intros x _. apply returns_given_Ret. exact I.
  - pose proof (GetCostByPeriod_cases s e u n) as C. cbv zeta in C.
    assert (F : forall err, fails_with (GetCostByPeriod s e u n) err ->
                returns_given repo_post one_of (in_repo (GetCostByPeriod s e u n))).
    { intros err ->. cbn. apply returns_given_Ret. exact I. }
    destruct C as [(_ & _ & H) | [(_ & err & _ & H) | [(_ & _ & err & _ & H) | (_ & _ & R)]]];
      try (eapply F; exact H).
    destruct R as (k & -> & Hok & Herr). cbn.
    apply returns_given_Vis. intros [[totalCost count] [err|]] _.
    + rewrite Herr. cbn. apply returns_given_Ret. exact I.
    + rewrite Hok. cbn. apply returns_given_Ret. exact I.
Qed.

Lemma service_over_pool_returns (X : Type) (e : serviceE X) :
  returns (service_post e) (interp repository_all (service e)).
Proof.
  apply returns_interp with (post := repo_post).
  - exact repository_all_post.
  - apply service_given_repo.
Qed.

(** X2.  Over the repository, whatever the pool answers, the methods of
    the service that return a result and an error (GetAllSubscriptions,
    GetSubscriptionByID, CreateSubscription, UpdateSubscription,
    GetCostByPeriod) return exactly one of the two: never a result
    together with an error, never nil for both. *)
Theorem service_returns_result_or_error
    (X : Type) (e : serviceE X)
    (S : Type) (h : forall Y, poolE Y -> S -> Y * S) (s : S) :
  service_post e (fst (run h (interp repository_all (service e)) s)).
Proof.
  apply returns_run, service_over_pool_returns.
Qed.

Lemma scan_rows_all (subs acc : list Subscription) :
  scan_rows (map inl subs) acc = inl (acc ++ subs)%list.
Proof.
  revert acc; induction subs as [|sub subs IH]; intros acc; cbn [map scan_rows].
  - rewrite app_nil_r. reflexivity.
  - rewrite IH, <- app_assoc. reflexivity.
Qed.

Lemma scan_rows_stop (subs : list Subscription) (err : error)
    (rest : list (Subscription + error)) (acc : list Subscription) :
  scan_rows (map inl subs ++ inr err :: rest)%list acc = inr err.
Proof.
  revert acc; induction subs as [|sub subs IH]; intros acc; cbn [map app scan_rows].
  - reflexivity.
  - apply IH.
Qed.

(** X3.  [GetAll] returns the error of [Query], wrapped, when the query
    fails.  Otherwise it scans the rows of the cursor in order: when every
    scan succeeds it returns all of them in that order in a slice that is
    not nil, also when there is no row, and no error, without looking at
    the error the cursor may have ended with; at the first scan that fails
    it returns nil and that error, wrapped. *)
Theorem GetAll_reads_the_cursor
    (S : Type) (h : forall X, poolE X -> S -> X * S) (s : S) :
  match fst (h _ (Query select_all []) s) with
  | inr err =>
      fst (run h repo_GetAll s) =
      (None, Some (wrap "failed to query subscriptions" err))
  | inl rows =>
      (forall subs,
         scans rows = map inl subs ->
         fst (run h repo_GetAll s) = (Some subs, None)) /\
      (forall subs err rest,
         scans rows = (map inl subs ++ inr err :: rest)%list ->
         fst (run h repo_GetAll s) =
         (None, Some (wrap "failed to scan subscription" err)))
  end.
Proof.
  unfold repo_GetAll, select_all. cbn [bind call run]. unfold error.
  match goal with
  | |- context [h ?X ?e s] => destruct (h X e s) as [[rows | err] s1]
  end; cbn [fst bind run].
  - split.
    + intros subs Hs. rewrite Hs, scan_rows_all. cbn [app bind run].
      repeat match goal with
             | |- context [h ?X ?e ?s0] => destruct (h X e s0) as [[] ?]
             end.
      reflexivity.
    + intros subs err rest Hs. rewrite Hs, scan_rows_stop. cbn [bind run].
      repeat match goal with
             | |- context [h ?X ?e ?s0] => destruct (h X e s0) as [[] ?]
             end.
      reflexivity.
  - match goal with
    | |- context [h ?X ?e ?s0] => destruct (h X e s0) as [[] ?]
    end.
    reflexivity.
Qed.

Lemma GetAll_reads_the_cursor_witness :
  fst (run (answering pool_with_broken_cursor) repo_GetAll O) =
  (Some two_subscriptions, None).
Proof.
  apply (proj1 (GetAll_reads_the_cursor (answering pool_with_broken_cursor) O)).
  reflexivity.
Defined.

(* ================================================================== *)
(** * The handlers *)

Lemma counts_bind {E : Type -> Type} {A B : Type}
    (w : forall X, E X -> bool) (post : forall X, E X -> X -> Prop)
    (Q' : nat -> A -> Prop) (Q : nat -> B -> Prop)
    (n : nat) (p : Prog E A) (f : A -> Prog E B) :
  counts w post Q' n p ->
  (forall m a, Q' m a -> counts w post Q m (f a)) ->
  counts w post Q n (bind p f).
Proof.
  intros Hp Hf. induction Hp as [n a Ha | n X e k _ IH]; cbn [bind].
  - apply Hf, Ha.
  - apply counts_Vis. exact IH.
Qed.

(** Linking with a counter: every call is implemented by a program that
    counts as the call does and returns within [post]. *)
Lemma counts_interp {E F : Type -> Type} {A : Type}
    (w : forall X, E X -> bool) (w' : forall X, F X -> bool)
    (post : forall X, E X -> X -> Prop) (Q : nat -> A -> Prop)
    (h : forall X, E X -> Prog F X) (n : nat) (p : Prog E A) :
  (forall X (e : E X) m,
      counts w' anything
        (fun m' x => m' = (if w X e then S m else m) /\ post X e x) m (h X e)) ->
  counts w post Q n p -> counts w' anything Q n (interp h p).
Proof.
  intros Hh. induction 1 as [n a Ha | n X e k _ IH]; cbn [interp].
  - apply counts_Ret, Ha.
  - eapply counts_bind; [apply Hh|].
    intros m a [-> Ha]. apply IH, Ha.
Qed.

Lemma counts_to_stack {A : Type} (f : forall X, httpE X -> bool)
    (Q : A -> Prop) (n : nat) (p : Prog poolE A) :
  returns Q p ->
  counts (on_http f) anything (fun m x => m = n /\ Q x) n (to_stack p).
Proof.
  induction 1 as [a Ha | X e k _ IH]; cbn.
  - apply counts_Ret. split; [reflexivity | exact Ha].
  - apply counts_Vis. intros x _. apply IH.
Qed.

Lemma stack_counts (f : forall X, httpE X -> bool) (X : Type) (e : handlerE X) (m : nat) :
  counts (on_http f) anything
    (fun m' x => m' = (if on_http f e then S m else m) /\ handler_post e x)
    m (stack e).
Proof.
  destruct e as [h | s]; cbn [stack on_http handler_post].
  - apply counts_Vis. intros x _. apply counts_Ret. split; [reflexivity | exact I].
  - apply counts_to_stack, service_over_pool_returns.
Qed.

Lemma counts_run {E : Type -> Type} {S A : Type}
    (w : forall X, E X -> bool) (Q : nat -> A -> Prop)
    (h : forall X, E X -> S -> X * S) (n : nat) (p : Prog E A) :
  counts w anything Q n p ->
  forall s, Q (n + length (List.filter (selected w) (trace h p s)))%nat
              (fst (run h p s)).
Proof.
  induction 1 as [n a Ha | n X e k _ IH]; intros s; cbn [run trace].
  - cbn. rewrite Nat.add_0_r. exact Ha.
  - destruct (h X e s) as [x s']. cbn [List.filter selected].
    specialize (IH x I s').
    destruct (w X e); cbn [length]; [rewrite Nat.add_succ_r|]; exact IH.
Qed.

Lemma statuses_length (tr : list (event stackE)) :
  length (statuses tr) = length (List.filter (selected (on_http writes_status)) tr).
Proof.
  unfold statuses. induction tr as [|[X [h | d]] tr IH]; cbn.
  - reflexivity.
  - destruct h; cbn; rewrite ?IH; reflexivity.
  - exact IH.
Qed.

Lemma bodies_length (tr : list (event stackE)) :
  length (bodies tr) = length (List.filter (selected (on_http writes_body)) tr).
Proof.
  unfold bodies. induction tr as [|[X [h | d]] tr IH]; cbn.
  - reflexivity.
  - destruct h; cbn; rewrite ?IH; reflexivity.
  - exact IH.
Qed.

(** A walk through the tree of a handler: open the request, answer each
    call within what the service promises, count. *)
Ltac walk_handler :=
  repeat first
    [ apply counts_Ret; split; reflexivity
    | match goal with
      | |- counts _ _ _ _ (match ?x with _ => _ end) => destruct x
      | |- counts _ _ _ _ (if ?x then _ else _) => destruct x
      end
    | apply counts_Vis;
      let x := fresh "x" in
      let Hx := fresh "Hx" in
      intros x Hx;
      cbn [handler_post service_post] in Hx;
      repeat match goal with
             | y : unit |- _ => destruct y
             | y : (_ * _)%type |- _ => destruct y
             | y : option _ |- _ => destruct y
             end;
      try contradiction;
      cbn [on_http writes_status writes_body] ].

(** Each handler, given a service that keeps its promise: one status, one
    body, and a return. *)
Lemma dispatch_counts (f : forall X, httpE X -> bool) (env : Env) (ep : endpoint)
    (r : Request) :
  f = writes_status \/ f = writes_body ->
  counts (on_http f) handler_post (fun n o => n = 1%nat /\ o = Returned)
    0 (Handler.dispatch env ep r).
Proof.
  intros [-> | ->]; destruct ep; cbn [Handler.dispatch];
    unfold Handler.GetSubscriptions, Handler.CreateSubscription,
      Handler.GetCostByPeriod, Handler.UpdateSubscription,
      Handler.DeleteSubscription;
    cbn [bind call Handler.log Handler.writeJSON];
    walk_handler.
Qed.

(** X4.  Linked with the service and the repository, every handler, on
    every request and whatever the pool answers, returns without a panic
    after it has written exactly one status code and encoded exactly one
    body. *)
Theorem handlers_answer_once
    (env : Env) (ep : endpoint) (r : Request)
    (S : Type) (h : forall X, stackE X -> S -> X * S) (s : S) :
  let p := serve (Handler.dispatch env ep r) in
  fst (run h p s) = Returned /\
  length (statuses (trace h p s)) = 1%nat /\
  length (bodies (trace h p s)) = 1%nat.
Proof.
  cbv zeta.
  assert (C : forall f, f = writes_status \/ f = writes_body ->
                counts (on_http f) anything (fun n o => n = 1%nat /\ o = Returned)
                  0 (serve (Handler.dispatch env ep r))).
  { intros f Hf. unfold serve.
    apply counts_interp with (w := on_http f) (post := handler_post).
    - intros X e m. apply stack_counts.
    - apply dispatch_counts, Hf. }
  pose proof (counts_run h (C _ (or_introl eq_refl)) s) as [H1 H2].
  pose proof (counts_run h (C _ (or_intror eq_refl)) s) as [H3 _].
  rewrite statuses_length, bodies_length. cbn in H1, H3. auto.
Qed.

(** A run of a linked handler, call by call; an answer that a hypothesis
    fixes for every state is replaced by it. *)
Ltac unfold_calls :=
  cbn [trace run interp bind call serve stack to_stack service in_repo in_pool
       repository_all repository Handler.log Handler.writeJSON fst snd
       GetAllSubscriptions GetSubscriptionByID DeleteSubscription
       repo_GetAll repo_GetByID repo_Delete repo_Create repo_Update].

Ltac run_calls h :=
  unfold error in *;
  repeat (unfold_calls;
          match goal with
          | |- context [h ?X ?e ?s0] =>
              let x := fresh "x" in
              let s1 := fresh "s" in
              let E := fresh "E" in
              destruct (h X e s0) as [x s1] eqn:E;
              try match goal with
                  | Hh : forall s', fst (h _ e s') = _ |- _ =>
                      let T := fresh "T" in
                      pose proof (Hh s0) as T; rewrite E in T;
                      cbn [fst] in T; subst x
                  end;
              clear E
          end);
  unfold_calls.

(** The same, by cases on the answers that no hypothesis fixes. *)
Ltac all_calls h :=
  repeat (run_calls h;
          match goal with
          | x : (_ + _)%type |- _ => destruct x
          | x : (_ * _)%type |- _ => destruct x
          | |- context [(?n =? 0)%Z] => destruct (n =? 0)%Z
          end);
  run_calls h.

(** X5.  A body that decodes to a request which fails validation is
    answered with the validation message and no statement reaches the
    pool; the status is 400 Bad Request on creation and 404 Not Found on
    update. *)
Theorem invalid_request_statuses
    (env : Env) (r : Request) (body : string)
    (S : Type) (h : forall X, stackE X -> S -> X * S) (s : S) :
  Body r = inl body ->
  (forall req err,
     Unmarshal_create env body = inl req ->
     validateSubscriptionRequest req = Some err ->
     let tr := trace h (serve (Handler.CreateSubscription env r)) s in
     statuses tr = [400%Z] /\ bodies tr = [failure err] /\ statements tr = []) /\
  (forall id req err,
     Atoi env (URLParam r "id") = inl id ->
     Unmarshal_update env body = inl req ->
     validateSubscriptionRequest (as_create req) = Some err ->
     let tr := trace h (serve (Handler.UpdateSubscription env r)) s in
     statuses tr = [404%Z] /\ bodies tr = [failure err] /\ statements tr = []).
Proof.
  intros HB. split.
  - intros req err HU HV. cbv zeta.
    unfold Handler.CreateSubscription. rewrite HB, HU.
    run_calls h. unfold CreateSubscription. rewrite HV.
    run_calls h. cbn. repeat split; reflexivity.
  - intros id req err HA HU HV. cbv zeta.
    unfold Handler.UpdateSubscription. rewrite HA, HB, HU.
    run_calls h. rewrite UpdateSubscription_eq, HV.
    run_calls h. cbn. repeat split; reflexivity.
Qed.

Lemma invalid_request_statuses_witness :
  statuses (trace (answering_stack empty_pool)
              (serve (Handler.CreateSubscription
                        (decoding free_request priceless_update)
                        (request_1 no_query))) O) = [400%Z] /\
  statuses (trace (answering_stack empty_pool)
              (serve (Handler.UpdateSubscription
                        (decoding free_request priceless_update)
                        (request_1 no_query))) O) = [404%Z].
Proof.
  pose proof (invalid_request_statuses
                (decoding free_request priceless_update) (request_1 no_query)
                (answering_stack empty_pool) O (body := "{}") eq_refl) as [Hc Hu].
  split.
  - apply (Hc free_request "price must be greater than 0"); reflexivity.
  - apply (Hu 1%Z priceless_update "price must be greater than 0"); reflexivity.
Defined.

(** X6.  DELETE with a path parameter that is not a number is answered
    400 before anything else.  With a number, the one statement sent is
    the DELETE for that identifier; the answer is 200 when the pool
    reports rows affected, 404 with "subscription not found" when it
    reports none, and 404 with the wrapped error when the statement
    fails. *)
Theorem delete_statuses
    (env : Env) (r : Request)
    (S : Type) (h : forall X, stackE X -> S -> X * S) (s : S) :
  let tr := trace h (serve (Handler.DeleteSubscription env r)) s in
  match Atoi env (URLParam r "id") with
  | inr _ =>
      statuses tr = [400%Z] /\ bodies tr = [failure "Invalid subscription ID"] /\
      statements tr = []
  | inl id =>
      let delete := Exec "DELETE FROM subscriptions WHERE id=$1" [AInt id] in
      statements tr = [("DELETE FROM subscriptions WHERE id=$1", [AInt id])] /\
      (forall n, (forall s', fst (h _ (inr1 delete) s') = inl n) ->
         if (n =? 0)%Z
         then statuses tr = [404%Z] /\ bodies tr = [failure "subscription not found"]
         else statuses tr = [200%Z] /\
              bodies tr = [success (DMessage [("message", "Subscription deleted")])]) /\
      (forall err, (forall s', fst (h _ (inr1 delete) s') = inr err) ->
         statuses tr = [404%Z] /\
         bodies tr = [failure (wrap "failed to delete subscription" err)])
  end.
Proof.
  cbv zeta. unfold Handler.DeleteSubscription.
  destruct (Atoi env (URLParam r "id")) as [id | aerr].
  - split; [|split].
    + all_calls h; reflexivity.
    + intros n Hn. all_calls h; cbn; split; reflexivity.
    + intros err He. all_calls h; cbn; split; reflexivity.
  - run_calls h. cbn. repeat split; reflexivity.
Qed.

Lemma delete_statuses_witness :
  let tr := trace (answering_stack empty_pool)
              (serve (Handler.DeleteSubscription
                        (decoding free_request priceless_update)
                        (request_1 no_query))) O in
  statuses tr = [404%Z] /\ bodies tr = [failure "subscription not found"].
Proof.
  apply (proj1 (proj2 (delete_statuses
                         (decoding free_request priceless_update)
                         (request_1 no_query)
                         (answering_stack empty_pool) O)) 0%Z).
  reflexivity.
Defined.




(** X8.  GET /subscriptions sends the one SELECT of [GetAll].  When the
    query fails the answer is 500 with the fixed message "Failed to fetch
    subscriptions": the error of the pool is logged, not sent.  When every
    row scans the answer is 200 with the rows in the order of the cursor,
    an empty list, not null, when there is none. *)
Theorem list_statuses
    (r : Request)
    (S : Type) (h : forall X, stackE X -> S -> X * S) (s : S) :
  let tr := trace h (serve (Handler.GetSubscriptions r)) s in
  statements tr = [(select_all, [])] /\
  (forall err,
     (forall s', fst (h _ (inr1 (Query select_all [])) s') = inr err) ->
     statuses tr = [500%Z] /\ bodies tr = [failure "Failed to fetch subscriptions"]) /\
  (forall rows subs,
     (forall s', fst (h _ (inr1 (Query select_all [])) s') = inl rows) ->
     scans rows = map inl subs ->
     statuses tr = [200%Z] /\ bodies tr = [success (DSubscriptions (Some subs))]).
Proof.
  cbv zeta. unfold Handler.GetSubscriptions, select_all. split; [|split].
  - run_calls h. destruct x0 as [rows | err]; run_calls h.
    + destruct (scan_rows (scans rows) []); run_calls h; reflexivity.
    + reflexivity.
  - intros err Hq. run_calls h. cbn. split; reflexivity.
  - intros rows subs Hq Hs. run_calls h. rewrite Hs, scan_rows_all.
    run_calls h. cbn. split; reflexivity.
Qed.

Lemma list_statuses_witness :
  let tr := trace (answering_stack empty_pool)
              (serve (Handler.GetSubscriptions (request_1 no_query))) O in
  statuses tr = [200%Z] /\ bodies tr = [success (DSubscriptions (Some []))].
Proof.
  apply (proj2 (proj2 (list_statuses (request_1 no_query)
                         (answering_stack empty_pool) O))
           {| scans := []; rows_Err := None |} []);
    reflexivity.
Defined.

(** X9.  The handlers of POST and of the cost request rely on the
    service for a result whenever the error is nil.  Against a service
    that returns nil for both, as the [MockService] of the tests does
    when no function is set, they panic on the nil result before any
    status is written, while the handler of PATCH, which does not look
    into the result, answers 200 with null data. *)
Theorem handlers_rely_on_the_service (env : Env) (r : Request) (body : string) :
  Body r = inl body ->
  (forall req,
     Unmarshal_create env body = inl req ->
     fst (run MockService (Handler.CreateSubscription env r) tt) = Panicked /\
     statuses (trace MockService (Handler.CreateSubscription env r) tt) = []) /\
  (forall userID,
     user_filter env (Query_Get r "user_id") = inl userID ->
     fst (run MockService (Handler.GetCostByPeriod env r) tt) = Panicked /\
     statuses (trace MockService (Handler.GetCostByPeriod env r) tt) = []) /\
  (forall id req,
     Atoi env (URLParam r "id") = inl id ->
     Unmarshal_update env body = inl req ->
     fst (run MockService (Handler.UpdateSubscription env r) tt) = Returned /\
     statuses (trace MockService (Handler.UpdateSubscription env r) tt) = [200%Z] /\
     bodies (trace MockService (Handler.UpdateSubscription env r) tt) =
       [success (DSubscription None)]).
Proof.
  intros HB. split; [|split].
  - intros req HU. unfold Handler.CreateSubscription. rewrite HB, HU.
    split; reflexivity.
  - intros userID. unfold Handler.GetCostByPeriod, user_filter.
    destruct (negb (String.eqb (Query_Get r "user_id") "")).
    + destruct (uuid_Parse env (Query_Get r "user_id")); [|discriminate].
      intros _. split; reflexivity.
    + intros _. split; reflexivity.
  - intros id req HA HU. unfold Handler.UpdateSubscription. rewrite HA, HB, HU.
    repeat split; reflexivity.
Qed.

Lemma handlers_rely_on_the_service_witness :
  fst (run MockService
         (Handler.CreateSubscription (decoding netflix_request premium_update)
            (request_1 no_query)) tt) = Panicked /\
  fst (run MockService
         (Handler.UpdateSubscription (decoding netflix_request premium_update)
            (request_1 no_query)) tt) = Returned.
Proof.
  pose proof (handlers_rely_on_the_service
                (decoding netflix_request premium_update) (request_1 no_query)
                (body := "{}") eq_refl) as (Hc & _ & Hu).
  split.
  - apply (Hc netflix_request). reflexivity.
  - apply (Hu 1%Z premium_update); reflexivity.
Defined.

(* ================================================================== *)
(** * Periods in the filters *)








Lemma MM_YYYY_length (s : string) : MM_YYYY s -> String.length s = 7%nat.
Proof.
  intros (a1 & a2 & a3 & a4 & a5 & a6 & _ & _ & _ & _ & _ & _ & ->). reflexivity.
Qed.

(** X11.  A request that passes validation has a start period of seven
    characters and an end period that is absent, empty or of seven
    characters, so both fit their VARCHAR(7) columns.  An end period
    that is present but empty passes like an absent one; it reaches the
    INSERT as the empty text, not as NULL, and a row with the empty end
    period is selected by no cost query that has an end period. *)
Theorem empty_end_period (req : CreateSubscriptionRequest) :
  (validateSubscriptionRequest req = None ->
   String.length (StartDate req) = 7%nat /\
   (forall d, EndDate req = Some d -> d = "" \/ String.length d = 7%nat)) /\
  (EndDate req = Some "" ->
   validateSubscriptionRequest req =
   validateSubscriptionRequest
     {| ServiceName := ServiceName req; Price := Price req; UserID := UserID req;
        StartDate := StartDate req; EndDate := None |} /\
   nth_error (insert_args req) 4 = Some (AStringPtr (Some "")) /\
   Pg.of_arg (AStringPtr (Some "")) = Pg.VText "") /\
  (forall s e u n r,
     e <> "" -> sub_EndDate r = Some "" ->
     Pg.selects (fst (costQuery s e u n)) (snd (costQuery s e u n)) r = Some false).
Proof.
  split; [|split].
  - intros H. apply validateSubscriptionRequest_None in H.
    destruct H as (_ & _ & _ & Hs & He). split.
    + apply MM_YYYY_length, validateDateFormat_None, Hs.
    + intros d Hd. destruct (String.eqb_spec d "") as [-> | Hne]; [left; reflexivity|].
      right. apply MM_YYYY_length, validateDateFormat_None, (He d Hd Hne).
  - intros H. split; [|split; [|reflexivity]].
    + unfold validateSubscriptionRequest. rewrite H. cbn.
      destruct (String.eqb (ServiceName req) ""); [reflexivity|].
      destruct (Price req <=? 0)%Z; [reflexivity|].
      destruct (uuid_eqb (UserID req) uuid_Nil); [reflexivity|].
      destruct (validateDateFormat (StartDate req)); reflexivity.
    + unfold insert_args. cbn. rewrite H. reflexivity.
  - intros s e u n r He Hr. rewrite costQuery_selects. f_equal.
    destruct e as [|c e']; [contradiction|].
    destruct s as [ | ? ? ]; destruct u as [ ? | ]; destruct n as [ ? | ];
      cbn [present String.eqb app forallb holds]; rewrite Hr;
      cbn; rewrite ?andb_false_r; reflexivity.
Qed.

Lemma empty_end_period_witness :
  Pg.selects (fst (costQuery "01-2025" "12-2025" None None))
             (snd (costQuery "01-2025" "12-2025" None None)) unended_row = Some false /\
  String.length (StartDate netflix_request) = 7%nat.
Proof.
  split.
  - apply (proj2 (proj2 (empty_end_period netflix_request))).
    + discriminate.
    + reflexivity.
  - apply (proj1 (empty_end_period netflix_request)). reflexivity.
Defined.

(* ================================================================== *)
(** * The INSERT and the UPDATE *)

(** X12.  In the statement of [Create] every column receives the field
    of the request that it is named after, and in the statement of
    [Update] so does every assigned column, while the condition on [id]
    receives the identifier: text and parameters agree by position. *)
Theorem create_and_update_bind_by_name
    (id : Z) (req : CreateSubscriptionRequest) (upd : UpdateSubscriptionRequest) :
  (exists k,
     repo_Create req = Vis (QueryRowSubscription insert_subscription (insert_args req)) k) /\
  option_map (fun cols => Dml.bound cols (insert_args req))
             (Dml.read_insert insert_subscription) =
  Some (Some [("service_name", AString (ServiceName req));
              ("price", AInt (Price req));
              ("user_id", AUuid (UserID req));
              ("start_date", AString (StartDate req));
              ("end_date", AStringPtr (EndDate req))]) /\
  (exists k,
     repo_Update id upd =
     Vis (QueryRowSubscription update_subscription (update_args id upd)) k) /\
  option_map (fun '(sets, cond) =>
                (Dml.bound sets (update_args id upd),
                 Dml.bound [cond] (update_args id upd)))
             (Dml.read_update update_subscription) =
  Some (Some [("service_name", AString (upd_ServiceName upd));
              ("price", AInt (upd_Price upd));
              ("user_id", AUuid (upd_UserID upd));
              ("start_date", AString (upd_StartDate upd));
              ("end_date", AStringPtr (upd_EndDate upd))],
        Some [("id", AInt id)]).
Proof.
  split; [eexists; reflexivity|].
  split; [reflexivity|].
  split; [eexists; reflexivity|].
  reflexivity.
Qed.

(* ================================================================== *)
(** * More on the handlers *)

(** X13.  For a body that decodes to a request which passes validation,
    POST sends the INSERT with the five fields and nothing else, and
    answers 201 with the row the pool returns or 400 with its wrapped
    error; PATCH with a numeric path parameter sends the UPDATE with the
    five fields and the identifier, and answers 200 with the row or 404
    with the wrapped error, a missing row included.  PATCH with a path
    parameter that is not a number answers 400 and sends nothing. *)
Theorem valid_request_statements
    (env : Env) (r : Request)
    (S : Type) (h : forall X, stackE X -> S -> X * S) (s : S) :
  (forall body req,
     Body r = inl body -> Unmarshal_create env body = inl req ->
     validateSubscriptionRequest req = None ->
     let tr := trace h (serve (Handler.CreateSubscription env r)) s in
     let insert := Pool (QueryRowSubscription insert_subscription (insert_args req)) in
     statements tr = [(insert_subscription, insert_args req)] /\
     (forall sub, (forall s', fst (h _ (inr1 insert) s') = inl sub) ->
        statuses tr = [201%Z] /\ bodies tr = [success (DSubscription (Some sub))]) /\
     (forall err, (forall s', fst (h _ (inr1 insert) s') = inr err) ->
        statuses tr = [400%Z] /\
        bodies tr = [failure (wrap "failed to create subscription" err)])) /\
  (forall id body req,
     Atoi env (URLParam r "id") = inl id ->
     Body r = inl body -> Unmarshal_update env body = inl req ->
     validateSubscriptionRequest (as_create req) = None ->
     let tr := trace h (serve (Handler.UpdateSubscription env r)) s in
     let update := Pool (QueryRowSubscription update_subscription (update_args id req)) in
     statements tr = [(update_subscription, update_args id req)] /\
     (forall sub, (forall s', fst (h _ (inr1 update) s') = inl sub) ->
        statuses tr = [200%Z] /\ bodies tr = [success (DSubscription (Some sub))]) /\
     (forall err, (forall s', fst (h _ (inr1 update) s') = inr err) ->
        statuses tr = [404%Z] /\
        bodies tr = [failure (wrap "failed to update subscription" err)])) /\
  (forall err,
     Atoi env (URLParam r "id") = inr err ->
     let tr := trace h (serve (Handler.UpdateSubscription env r)) s in
     statuses tr = [400%Z] /\ bodies tr = [failure "Invalid subscription ID"] /\
     statements tr = []).
Proof.
  split; [|split].
  - intros body req HB HU HV. cbv zeta.
    unfold Handler.CreateSubscription, insert_subscription, insert_args.
    rewrite HB, HU. split; [|split].
    + run_calls h. unfold CreateSubscription. rewrite HV. all_calls h; reflexivity.
    + intros sub Hq. run_calls h. unfold CreateSubscription. rewrite HV.
      all_calls h. cbn. split; reflexivity.
    + intros err Hq. run_calls h. unfold CreateSubscription. rewrite HV.
      all_calls h. cbn. split; reflexivity.
  - intros id body req HA HB HU HV. cbv zeta.
    unfold Handler.UpdateSubscription, update_subscription, update_args.
    rewrite HA, HB, HU. split; [|split].
    + run_calls h. rewrite UpdateSubscription_eq, HV. all_calls h; reflexivity.
    + intros sub Hq. run_calls h. rewrite UpdateSubscription_eq, HV.
      all_calls h. cbn. split; reflexivity.
    + intros err Hq. run_calls h. rewrite UpdateSubscription_eq, HV.
      all_calls h. cbn. split; reflexivity.
  - intros err HA. cbv zeta. unfold Handler.UpdateSubscription. rewrite HA.
    run_calls h. cbn. repeat split; reflexivity.
Qed.

Lemma valid_request_statements_witness :
  let env := decoding netflix_request premium_update in
  let tr := trace (answering_stack empty_pool)
              (serve (Handler.UpdateSubscription env (request_1 no_query))) O in
  statuses tr = [404%Z] /\
  bodies tr =
    [failure (wrap "failed to update subscription" "no rows in result set")].
Proof.
  cbv zeta.
  apply (proj1 (proj2 (valid_request_statements
                         (decoding netflix_request premium_update)
                         (request_1 no_query) (answering_stack empty_pool) O))
           1%Z "{}" premium_update eq_refl eq_refl eq_refl eq_refl).
  reflexivity.
Defined.

(** X14.  No handler calls [GetSubscriptionByID]: whatever the request
    and the answers of the service, no endpoint reads a single
    subscription. *)
Theorem no_handler_reads_one_subscription
    (env : Env) (ep : endpoint) (r : Request) :
  never calls_GetSubscriptionByID (Handler.dispatch env ep r).
Proof.
  destruct ep; cbn [Handler.dispatch];
    unfold Handler.GetSubscriptions, Handler.CreateSubscription,
      Handler.GetCostByPeriod, Handler.UpdateSubscription,
      Handler.DeleteSubscription;
    cbn [bind call Handler.log Handler.writeJSON];
    repeat first
      [ apply never_Ret
      | match goal with
        | |- never _ (match ?x with _ => _ end) => destruct x
        | |- never _ (if ?x then _ else _) => destruct x
        end
      | apply never_Vis; [reflexivity | intros ?] ].
Qed.

(* ================================================================== *)
(** * One round trip *)

(** Linking with a counter that is an upper bound. *)
Lemma counts_interp_le {E F : Type -> Type} {A : Type}
    (w : forall X, E X -> bool) (w' : forall X, F X -> bool)
    (Q : nat -> A -> Prop) (h : forall X, E X -> Prog F X) :
  (forall n n' a, (n' <= n)%nat -> Q n a -> Q n' a) ->
  (forall X (e : E X) m,
      counts w' anything (fun m' _ => (m' <= if w X e then S m else m)%nat) m (h X e)) ->
  forall n p, counts w anything Q n p ->
  forall n', (n' <= n)%nat -> counts w' anything Q n' (interp h p).
Proof.
  intros HQ Hh n p Hp.
  induction Hp as [n a Ha | n X e k _ IH]; intros n' Hn; cbn [interp].
  - apply counts_Ret. exact (HQ n n' a Hn Ha).
  - eapply counts_bind; [apply Hh|].
    cbn beta. intros m a Hm. apply (IH a I).
    destruct (w X e); lia.
Qed.

Lemma repository_one_statement (X : Type) (e : svcE X) (m : nat) :
  counts (fun Y d => sends_statement (Pool d)) anything
    (fun m' _ => (m' <= if is_repo_call e then S m else m)%nat) m (repository e).
Proof.
  destruct e as [lv message fields | req | id req | s e u n];
    cbn [repository is_repo_call]; unfold repo_Create, repo_Update,
      repo_GetCostByPeriod; try destruct (costQuery s e u n) as [query args];
    cbn [bind call];
    repeat first
      [ apply counts_Ret; lia
      | apply counts_Vis; intros x _; cbn [sends_statement statement_of];
        repeat match goal with
               | y : unit |- _ => destruct y
               | y : (_ + _)%type |- _ => destruct y
               | y : (_ * _)%type |- _ => destruct y
               end ].
Qed.

Lemma counts_in_pool {A : Type} (w : forall X, poolE X -> bool)
    (Q : nat -> A -> Prop) (n : nat) (p : Prog dbE A) :
  counts (fun Y d => w Y (Pool d)) anything Q n p ->
  counts w anything Q n (in_pool p).
Proof.
  induction 1 as [n a Ha | n X e k _ IH]; cbn.
  - apply counts_Ret, Ha.
  - apply counts_Vis. intros x _. apply IH. exact I.
Qed.

Lemma repository_all_one_statement (X : Type) (e : repoE X) (m : nat) :
  counts sends_statement anything
    (fun m' _ => (m' <= if is_repo_method e then S m else m)%nat) m
    (repository_all e).
Proof.
  destruct e as [X e | | id | id]; cbn [repository_all is_repo_method].
  - apply counts_in_pool, repository_one_statement.
  - unfold repo_GetAll. cbn [bind call].
    apply counts_Vis. intros [rows | err] _; cbn [sends_statement statement_of].
    + destruct (scan_rows (scans rows) []); cbn [bind call];
        repeat (apply counts_Vis; intros [] _; cbn [sends_statement statement_of]);
        apply counts_Ret; lia.
    + apply counts_Vis. intros [] _. apply counts_Ret. cbn. lia.
  - apply counts_in_pool. unfold repo_GetByID. cbn [bind call].
    apply counts_Vis. intros [sub | err] _; cbn [sends_statement statement_of].
    + apply counts_Ret. lia.
    + apply counts_Vis. intros [] _. apply counts_Ret. cbn. lia.
  - unfold repo_Delete. cbn [bind call].
    apply counts_Vis. intros [n | err] _; cbn [sends_statement statement_of].
    + destruct (n =? 0)%Z; cbn [bind call];
        (apply counts_Vis; intros [] _; apply counts_Ret; cbn; lia).
    + apply counts_Vis. intros [] _. apply counts_Ret. cbn. lia.
Qed.

(** Each method of the service calls the repository at most once. *)
Lemma service_one_call (X : Type) (e : serviceE X) (m : nat) :
  counts is_repo_method anything (fun m' _ => (m' <= S m)%nat) m (service e).
Proof.
  destruct e as [ | id | req | id req | id | s e u n]; cbn [service].
  - apply counts_Vis. intros x _. apply counts_Ret. cbn. lia.
  - apply counts_Vis. intros x _. apply counts_Ret. cbn. lia.
  - unfold CreateSubscription.
    destruct (validateSubscriptionRequest req); cbn;
      apply counts_Vis; intros x _; apply counts_Ret; cbn; lia.
  - rewrite UpdateSubscription_eq.
    destruct (validateSubscriptionRequest (as_create req)); cbn;
      apply counts_Vis; intros x _; apply counts_Ret; cbn; lia.
  - apply counts_Vis. intros x _. apply counts_Ret. cbn. lia.
  - pose proof (GetCostByPeriod_cases s e u n) as C. cbv zeta in C.
    assert (F : forall err, fails_with (GetCostByPeriod s e u n) err ->
                counts is_repo_method anything (fun m' _ => (m' <= S m)%nat) m
                  (in_repo (GetCostByPeriod s e u n))).
    { intros err ->. cbn. apply counts_Ret. lia. }
    destruct C as [(_ & _ & H) | [(_ & err & _ & H) | [(_ & _ & err & _ & H) | (_ & _ & R)]]];
      try (eapply F; exact H).
    destruct R as (k & -> & Hok & Herr). cbn.
    apply counts_Vis. intros [[totalCost count] [err|]] _.
    + rewrite Herr. cbn. apply counts_Ret. lia.
    + rewrite Hok. cbn. apply counts_Ret. lia.
Qed.

Lemma counts_to_stack_pool {A : Type} (w : forall X, poolE X -> bool)
    (Q : nat -> A -> Prop) (n : nat) (p : Prog poolE A) :
  counts w anything Q n p -> counts (on_pool w) anything Q n (to_stack p).
Proof.
  induction 1 as [n a Ha | n X e k _ IH]; cbn.
  - apply counts_Ret, Ha.
  - apply counts_Vis. intros x _. apply IH. exact I.
Qed.

Lemma stack_one_statement (X : Type) (e : handlerE X) (m : nat) :
  counts (on_pool sends_statement) anything
    (fun m' _ => (m' <= if is_service_call e then S m else m)%nat) m (stack e).
Proof.
  destruct e as [h | s]; cbn [stack is_service_call].
  - apply counts_Vis. intros x _. apply counts_Ret. cbn. lia.
  - apply counts_to_stack_pool.
    apply counts_interp_le with (w := is_repo_method) (n := m).
    + intros n n' _ Hn H. lia.
    + intros Y e m'. apply repository_all_one_statement.
    + apply service_one_call.
    + lia.
Qed.

(** Each handler calls the service at most once. *)
Lemma dispatch_one_call (env : Env) (ep : endpoint) (r : Request) :
  counts is_service_call anything (fun n _ => (n <= 1)%nat) 0
    (Handler.dispatch env ep r).
Proof.
  destruct ep; cbn [Handler.dispatch];
    unfold Handler.GetSubscriptions, Handler.CreateSubscription,
      Handler.GetCostByPeriod, Handler.UpdateSubscription,
      Handler.DeleteSubscription;
    cbn [bind call Handler.log Handler.writeJSON];
    repeat first
      [ apply counts_Ret; lia
      | match goal with
        | |- counts _ _ _ _ (match ?x with _ => _ end) => destruct x
        | |- counts _ _ _ _ (if ?x then _ else _) => destruct x
        end
      | apply counts_Vis;
        let x := fresh "x" in
        intros x _;
        repeat match goal with
               | y : unit |- _ => destruct y
               | y : (_ * _)%type |- _ => destruct y
               | y : option _ |- _ => destruct y
               end;
        cbn [is_service_call] ].
Qed.

Lemma statements_length (tr : list (event stackE)) :
  length (statements tr) =
  length (List.filter (selected (on_pool sends_statement)) tr).
Proof.
  unfold statements. induction tr as [|[X [h | d]] tr IH]; cbn.
  - reflexivity.
  - exact IH.
  - unfold sends_statement. destruct (statement_of d) as [[query args]|]; cbn;
      rewrite IH; reflexivity.
Qed.

(** X15.  Linked with the service and the repository, no handler sends
    more than one statement to the pool for a request, whatever the
    request and whatever the pool answers. *)
Theorem handlers_send_at_most_one_statement
    (env : Env) (ep : endpoint) (r : Request)
    (S : Type) (h : forall X, stackE X -> S -> X * S) (s : S) :
  (length (statements (trace h (serve (Handler.dispatch env ep r)) s)) <= 1)%nat.
Proof.
  rewrite statements_length.
  assert (C : counts (on_pool sends_statement) anything (fun n _ => (n <= 1)%nat) 0
                (serve (Handler.dispatch env ep r))).
  { unfold serve.
    apply counts_interp_le with (w := is_service_call) (n := O).
    - intros n n' _ Hn H. lia.
    - intros X e m. apply stack_one_statement.
    - apply dispatch_one_call.
    - lia. }
  exact (counts_run h C s).
Qed.

(* ================================================================== *)
(** * The cost of a table *)

(** X16.  Over a pool that answers the aggregate statement as the store
    reads it on a table, a cost request whose dates pass validation never
    fails: it returns the sum of the prices and the number of the rows on
    which every filter that is present holds, and so a total of zero and
    a count of zero when no row matches. *)
Theorem cost_of_a_table
    (s e : string) (u : option UUID) (n : option string)
    (table : list Subscription)
    (S : Type) (h : forall X, dbE X -> S -> X * S) (st : S) :
  validateDateFormat s = None ->
  e = "" \/ validateDateFormat e = None ->
  (forall query args st',
      fst (h _ (QueryRowCost query args) st') = Pg.aggregate query args table) ->
  fst (run h (over_pool (GetCostByPeriod s e u n)) st) =
  (Some {| TotalCost :=
             fold_right (fun r total => (sub_Price r + total)%Z) 0%Z
                        (matching s e u n table);
           Count := Z.of_nat (length (matching s e u n table)) |},
   None).
Proof.
  intros Hs He Hh.
  pose proof (GetCostByPeriod_cases s e u n) as C. cbv zeta in C.
  destruct C as [(H0 & _ & _) | [(_ & err & Hv & _) | [(_ & Hne & err & Hv & _) | (_ & _ & R)]]].
  - rewrite H0 in Hs. discriminate Hs.
  - congruence.
  - destruct He; congruence.
  - pose proof (run_reads_store h st R) as Q.
    pose proof (costQuery_aggregate s e u n table) as G.
    destruct (costQuery s e u n) as [query args]. cbn [fst snd] in G.
    rewrite Q, Hh, G. reflexivity.
Qed.

Lemma cost_of_a_table_witness :
  fst (run (table_pool two_subscriptions)
         (over_pool (GetCostByPeriod "01-2025" "12-2025" (Some some_user) None)) tt) =
  (Some {| TotalCost := 150; Count := 2 |}, None) /\
  fst (run (table_pool [])
         (over_pool (GetCostByPeriod "01-2025" "" None (Some "Netflix"))) tt) =
  (Some {| TotalCost := 0; Count := 0 |}, None).
Proof.
  split.
  - apply (@cost_of_a_table "01-2025" "12-2025" (Some some_user) None
             two_subscriptions unit (table_pool two_subscriptions) tt).
    + reflexivity.
    + right. reflexivity.
    + reflexivity.
  - apply (@cost_of_a_table "01-2025" "" None (Some "Netflix")
             [] unit (table_pool []) tt).
    + reflexivity.
    + left. reflexivity.
    + reflexivity.
Defined.
